(** * order-up: the order store and the order lifecycle handlers

    A shallow embedding of [storage/memory.go] (the in-memory order store)
    and of the HTTP handlers of the [api] package ([postOrders],
    [getOrders], [chargeOrder], [cancelOrder] and [orderFetchMiddleware]),
    followed by the properties of the order lifecycle that are established
    for them. *)

From Stdlib Require Import ZArith Ascii String List Lia.
From Stdlib.Strings Require Import Byte.
From stdpp Require Import base tactics option list gmap strings fin_maps pretty.

Local Open Scope string_scope.
Local Open Scope Z_scope.
Local Open Scope list_scope.

(** ** Go base types *)

(** [int64] values are kept as [Z]; every arithmetic result is brought back
    into the 64-bit two's complement range, as the Go operators do. *)
Definition min_int64 : Z := - 2 ^ 63.
Definition max_int64 : Z := 2 ^ 63 - 1.

Definition wrap64 (z : Z) : Z := (z + 2 ^ 63) mod 2 ^ 64 - 2 ^ 63.

Definition add64 (a b : Z) : Z := wrap64 (a + b).
Definition mul64 (a b : Z) : Z := wrap64 (a * b).
Definition neg64 (a : Z) : Z := wrap64 (- a).

Definition in_int64 (z : Z) : Prop := min_int64 <= z <= max_int64.

(** A Go slice is either [nil] or a (possibly empty) sequence: the two are
    told apart by [orders == nil] in [getOrders] and by the JSON encoder. *)
Definition slice (A : Type) : Type := option (list A).

Definition nil_slice {A} : slice A := None.

Definition elems {A} (s : slice A) : list A :=
  match s with
  | None => []
  | Some l => l
  end.

(** [append(s, x)]: always yields a non-nil slice. *)
Definition append {A} (s : slice A) (x : A) : slice A := Some (elems s ++ [x]).

(** [strings.Contains(s, substr)]. *)
Fixpoint Contains (s substr : string) : bool :=
  String.prefix substr s ||
  match s with
  | EmptyString => false
  | String _ s' => Contains s' substr
  end.

(** [hex.EncodeToString]: two lower-case digits per byte, high nibble first. *)
Definition hextable : string := "0123456789abcdef".

Definition hexdigit (n : N) : ascii :=
  match String.get (N.to_nat n) hextable with
  | Some c => c
  | None => "0"%char
  end.

Fixpoint EncodeToString (src : list byte) : string :=
  match src with
  | [] => ""
  | v :: rest =>
      String (hexdigit (N.shiftr (Byte.to_N v) 4))
        (String (hexdigit (N.land (Byte.to_N v) 15)) (EncodeToString rest))
  end.

(** ** Package storage: data model *)

(** Go errors.  The two sentinels of the storage package are compared by
    identity ([errors.Is]); every other error is only carried as its
    message. *)
Inductive error : Type :=
  | ErrOrderNotFound
  | ErrOrderExists
  | ErrOther (msg : string).

Definition Error (e : error) : string :=
  match e with
  | ErrOrderNotFound => "order not found"
  | ErrOrderExists => "order already exists"
  | ErrOther msg => msg
  end.

Definition is_ErrOrderNotFound (e : error) : bool :=
  match e with ErrOrderNotFound => true | _ => false end.

Definition is_ErrOrderExists (e : error) : bool :=
  match e with ErrOrderExists => true | _ => false end.

(** A Go [(T, error)] result. *)
Inductive result (A : Type) : Type :=
  | Ok (a : A)
  | Err (e : error).
Arguments Ok {A} a.
Arguments Err {A} e.

(** Modelled from the spec: the declaration of [OrderStatus] is in a file
    of the storage package that is not among the sources.  It is an
    integer type (the handlers assign [-1] to it) whose values are
    [Pending=0, Charged=1, Fulfilled=2, Cancelled=3]; [-1] is the filter
    value of [GetOrders] for "every order". *)
Definition OrderStatus : Type := Z.

(** Modelled from the spec: the status constants, missing with the
    declaration of [OrderStatus]; their values are those of section 3 of
    the spec and of the API documentation. *)
Definition OrderStatusPending : OrderStatus := 0.
Definition OrderStatusCharged : OrderStatus := 1.
Definition OrderStatusFulfilled : OrderStatus := 2.
Definition OrderStatusCancelled : OrderStatus := 3.

(** Modelled from the spec: the struct [LineItem], declared in the missing
    file: a description, a signed 64-bit unit price in cents (negative for
    a discount) and a 64-bit quantity. *)
Record LineItem : Type := mkLineItem {
  Description : string;
  PriceCents : Z;
  Quantity : Z
}.

(** Modelled from the spec: the struct [Order], declared in the missing
    file: id, customer email, line items and status.  The fields [ID],
    [CustomerEmail], [LineItems] and [Status] are the ones the handlers
    and [memory.go] use. *)
Record Order : Type := mkOrder {
  ID : string;
  CustomerEmail : string;
  LineItems : list LineItem;
  Status : OrderStatus
}.

(** Modelled from the spec: the method [Order.TotalCents], declared in the
    missing file.  The total is derived, never stored: the sum over the
    line items of unit price times quantity, computed on [int64]. *)
Definition TotalCents (o : Order) : Z :=
  fold_left (fun total li => add64 total (mul64 (PriceCents li) (Quantity li)))
            (LineItems o) 0.

(** The same sum on unbounded integers, for comparison. *)
Definition exact_total (items : list LineItem) : Z :=
  fold_right (fun li acc => PriceCents li * Quantity li + acc) 0 items.

Definition with_ID (o : Order) (id : string) : Order :=
  {| ID := id; CustomerEmail := CustomerEmail o;
     LineItems := LineItems o; Status := Status o |}.

Definition with_Status (o : Order) (status : OrderStatus) : Order :=
  {| ID := ID o; CustomerEmail := CustomerEmail o;
     LineItems := LineItems o; Status := status |}.

(** ** storage/memory.go *)

(** The outcome of [rand.Read(b)] on the 16-byte buffer of [InsertOrder]:
    an error, or the bytes delivered by the system's random source. *)
Inductive RandRead : Type :=
  | RandFail (err : error)
  | RandFill (src : list byte).

(** [b := make([]byte, 16)] after a successful [rand.Read(b)]: the zeroed
    buffer overwritten from the source. *)
Definition fill16 (src : list byte) : list byte :=
  take 16 (src ++ replicate 16 x00).

Module Memory.

(** [MemoryInstance]: the map of orders.  Every method holds the
    instance's lock for its whole body, so that each one is a single
    atomic transformation of the map. *)
Record MemoryInstance : Type := mkMemory {
  orders : gmap string Order
}.

Definition NewMemory : MemoryInstance := {| orders := ∅ |}.

Definition GetOrder (i : MemoryInstance) (id : string) : result Order :=
  match orders i !! id with
  | None => Err ErrOrderNotFound
  | Some order => Ok order
  end.

(** The body of the [for _, order := range i.orders] loop of [GetOrders],
    run over the entries in the order the iteration visits them. *)
Definition GetOrders_range (status : OrderStatus)
    (visited : list (string * Order)) : slice Order :=
  fold_left
    (fun acc kv =>
       if (status =? -1) || (Status kv.2 =? status)
       then append acc kv.2 else acc)
    visited nil_slice.

(** Go leaves the iteration order of a map unspecified: any enumeration
    of the entries may be the one visited. *)
Definition iteration_of (i : MemoryInstance)
    (visited : list (string * Order)) : Prop :=
  visited ≡ₚ map_to_list (orders i).

Definition GetOrders (i : MemoryInstance) (status : OrderStatus)
    : result (slice Order) :=
  Ok (GetOrders_range status (map_to_list (orders i))).

Definition SetOrderStatus (i : MemoryInstance) (id : string)
    (status : OrderStatus) : MemoryInstance * option error :=
  match orders i !! id with
  | None => (i, Some ErrOrderNotFound)
  | Some order =>
      ({| orders := <[id := with_Status order status]> (orders i) |}, None)
  end.

Definition InsertOrder (i : MemoryInstance) (rnd : RandRead) (order : Order)
    : MemoryInstance * result string :=
  let generated :=
    if decide (ID order = "") then
      match rnd with
      | RandFail err => Err err
      | RandFill src => Ok (with_ID order (EncodeToString (fill16 src)))
      end
    else Ok order in
  match generated with
  | Err err => (i, Err err)
  | Ok order =>
      match orders i !! ID order with
      | Some _ => (i, Err ErrOrderExists)
      | None => ({| orders := <[ID order := order]> (orders i) |}, Ok (ID order))
      end
  end.

End Memory.

(** ** Package api *)

(** *** Collaborators of an [instance] *)

(** The storage interface the handlers are written against
    ([mocks.StorageInstance]).  The two lookups only read. *)
Class StorageInstance (S : Type) : Type := {
  GetOrder : S -> string -> result Order;
  GetOrders : S -> OrderStatus -> result (slice Order);
  SetOrderStatus : S -> string -> OrderStatus -> S * option error;
  InsertOrder : S -> Order -> S * result string
}.

(** The body posted to the charge service.  (Its [CardToken] field is
    named [ServiceCardToken] here, apart from the one of
    [chargeOrderArgs].) *)
Record chargeServiceChargeArgs : Type := mkChargeArgs {
  ServiceCardToken : string;
  AmountCents : Z
}.

(** What [chargeService.Post] comes back with: a transport error, or a
    response with its status code and body. *)
Inductive PostResult : Type :=
  | PostError (err : error)
  | PostResponse (code : Z) (body : string).

(** The charge service behind the [*http.Client]: its answer may depend on
    everything posted to it before; [Requests] records what has been
    posted, oldest first. *)
Record Client : Type := mkClient {
  Respond : list chargeServiceChargeArgs -> chargeServiceChargeArgs -> PostResult;
  Requests : list chargeServiceChargeArgs
}.

Definition Post (c : Client) (args : chargeServiceChargeArgs)
    : Client * PostResult :=
  ({| Respond := Respond c; Requests := Requests c ++ [args] |},
   Respond c (Requests c) args).

(** The [instance] struct (router and fulfillment client left out: no
    handler below uses them). *)
Record instance (S : Type) : Type := mkInstance {
  stor : S;
  chargeService : Client
}.
Arguments mkInstance {S} stor chargeService.
Arguments stor {S} i.
Arguments chargeService {S} i.

(** *** Handler programs

    A handler is a program that calls the store and the charge service
    and finally answers.  Keeping the calls explicit lets the same handler
    text be run alone ([run]) or interleaved with other requests
    ([run_schedule]). *)
Inductive Prog (R : Type) : Type :=
  | Return (r : R)
  | CallGetOrder (id : string) (k : result Order -> Prog R)
  | CallGetOrders (status : OrderStatus) (k : result (slice Order) -> Prog R)
  | CallSetOrderStatus (id : string) (status : OrderStatus)
      (k : option error -> Prog R)
  | CallInsertOrder (order : Order) (k : result string -> Prog R)
  | CallPost (args : chargeServiceChargeArgs) (k : PostResult -> Prog R).
Arguments Return {R} r.
Arguments CallGetOrder {R} id k.
Arguments CallGetOrders {R} status k.
Arguments CallSetOrderStatus {R} id status k.
Arguments CallInsertOrder {R} order k.
Arguments CallPost {R} args k.

Fixpoint bind {A B : Type} (p : Prog A) (f : A -> Prog B) : Prog B :=
  match p with
  | Return a => f a
  | CallGetOrder id k => CallGetOrder id (fun r => bind (k r) f)
  | CallGetOrders status k => CallGetOrders status (fun r => bind (k r) f)
  | CallSetOrderStatus id status k =>
      CallSetOrderStatus id status (fun r => bind (k r) f)
  | CallInsertOrder order k => CallInsertOrder order (fun r => bind (k r) f)
  | CallPost args k => CallPost args (fun r => bind (k r) f)
  end.

#[global] Instance Prog_ret : MRet Prog := @Return.
#[global] Instance Prog_bind : MBind Prog := fun A B f p => bind p f.

(** *** Requests and responses *)

Definition StatusOK : Z := 200.
Definition StatusCreated : Z := 201.
Definition StatusMovedPermanently : Z := 301.
Definition StatusBadRequest : Z := 400.
Definition StatusNotFound : Z := 404.
Definition StatusConflict : Z := 409.
Definition StatusInternalServerError : Z := 500.

Definition ErrCodeOrderNotFound : string := "order_not_found".
Definition ErrCodeOrderExists : string := "order_already_exists".
Definition ErrCodeInvalidEmail : string := "invalid_email".
Definition ErrCodeInvalidLineItems : string := "invalid_line_items".
Definition ErrCodeInvalidTotal : string := "invalid_total".
Definition ErrCodeInvalidStatus : string := "invalid_status".
Definition ErrCodeOrderNotCharged : string := "order_not_charged".
Definition ErrCodeOrderNotEligible : string := "order_not_eligible".
Definition ErrCodeInvalidJSON : string := "invalid_json".
Definition ErrCodeInternalError : string := "internal_error".
Definition ErrCodeChargeServiceError : string := "charge_service_error".

(** The request and response structs.  The fields of [postOrderArgs]
    carry the prefix [Arg] to keep them apart from those of [Order]. *)
Record postOrderArgs : Type := mkPostOrderArgs {
  ArgCustomerEmail : string;
  ArgLineItems : list LineItem
}.

Record chargeOrderArgs : Type := mkChargeOrderArgs {
  CardToken : string
}.

Record cancelOrderRes : Type := mkCancelOrderRes {
  Message : string;
  OrderID : string;
  RefundedCents : Z
}.

(** The value handed to [c.JSON], one constructor per response struct. *)
Inductive Body : Type :=
  | no_body
  | errorResponse (code message : string)
  | getOrdersRes (Orders : slice Order)
  | getOrderRes (order : Order)
  | postOrderRes (order : Order)
  | chargeOrderRes (ChargedCents : Z)
  | cancelOrderResBody (res : cancelOrderRes)
  | redirect (location : string).

Record Response : Type := mkResponse {
  StatusCode : Z;
  Payload : Body
}.

(** The JSON object written for a [cancelOrderRes]: [refundedCents] is
    tagged [omitempty], which drops the field when the value is zero. *)
Inductive JSONValue : Type :=
  | JNumber (n : Z)
  | JString (s : string).

Definition JSONObject : Type := list (string * JSONValue).

Definition Marshal_cancelOrderRes (res : cancelOrderRes) : JSONObject :=
  [("message", JString (Message res)); ("orderId", JString (OrderID res))]
  ++ (if RefundedCents res =? 0 then []
      else [("refundedCents", JNumber (RefundedCents res))]).

Definition has_field (name : string) (obj : JSONObject) : bool :=
  bool_decide (name ∈ obj.*1).

Definition handleError (statusCode : Z) (code message : string) : Response :=
  mkResponse statusCode (errorResponse code message).

(** *** The handlers *)

(** [orderFetchMiddleware]: fetches the order and hands it to the handler
    of the route ([c.Set("order", order); c.Next()]). *)
Definition orderFetchMiddleware (id : string) (next : Order -> Prog Response)
    : Prog Response :=
  if decide (id = "") then
    Return (handleError StatusBadRequest ErrCodeInvalidStatus "missing order ID")
  else
    CallGetOrder id (fun r =>
      match r with
      | Err err =>
          if is_ErrOrderNotFound err then
            Return (handleError StatusNotFound ErrCodeOrderNotFound "not found")
          else
            Return (handleError StatusInternalServerError ErrCodeInternalError
                      ("error getting order: " +:+ Error err))
      | Ok order => next order
      end).

Definition healthCheck : Prog Response :=
  Return (mkResponse StatusOK no_body).

(** The [switch c.Query("status")] of [getOrders]. *)
Definition status_of_query (q : string) : option OrderStatus :=
  if decide (q = "pending") then Some OrderStatusPending
  else if decide (q = "charged") then Some OrderStatusCharged
  else if decide (q = "fulfilled") then Some OrderStatusFulfilled
  else if decide (q = "cancelled") then Some OrderStatusCancelled
  else if decide (q = "") then Some (-1)
  else None.

Definition getOrders (q : string) : Prog Response :=
  match status_of_query q with
  | None =>
      Return (handleError StatusBadRequest ErrCodeInvalidStatus
                "unknown value for status: %v")
  | Some status =>
      CallGetOrders status (fun r =>
        match r with
        | Err err =>
            Return (handleError StatusInternalServerError ErrCodeInternalError
                      ("error getting orders: " +:+ Error err))
        | Ok orders =>
            let orders :=
              match orders with
              | None => Some []
              | Some _ => orders
              end in
            Return (mkResponse StatusOK (getOrdersRes orders))
        end)
  end.

Definition getOrder (order : Order) : Prog Response :=
  Return (mkResponse StatusOK (getOrderRes order)).

(** [postOrders]; [body] is what [c.BindJSON(&args)] produced. *)
Definition postOrders (body : result postOrderArgs) : Prog Response :=
  match body with
  | Err err =>
      Return (handleError StatusBadRequest ErrCodeInvalidJSON
                ("error decoding body: " +:+ Error err))
  | Ok args =>
      if negb (Contains (ArgCustomerEmail args) "@") then
        Return (handleError StatusBadRequest ErrCodeInvalidEmail
                  "invalid customerEmail")
      else if Z.of_nat (length (ArgLineItems args)) <? 1 then
        Return (handleError StatusBadRequest ErrCodeInvalidLineItems
                  "an order must contain at least one line item")
      else
        let order := {| ID := ""; CustomerEmail := ArgCustomerEmail args;
                        LineItems := ArgLineItems args;
                        Status := OrderStatusPending |} in
        if TotalCents order <? 0 then
          Return (handleError StatusBadRequest ErrCodeInvalidTotal
                    "an order's total cannot be less than 0")
        else
          CallInsertOrder order (fun r =>
            match r with
            | Err err =>
                if is_ErrOrderExists err then
                  Return (handleError StatusConflict ErrCodeOrderExists
                            "order already exists")
                else
                  Return (handleError StatusInternalServerError
                            ErrCodeInternalError
                            ("error inserting order: " +:+ Error err))
            | Ok id =>
                Return (mkResponse StatusCreated (postOrderRes (with_ID order id)))
            end)
  end.

(** What [innerChargeOrder] makes of the outcome of its [Post]: a transport
    error and any status other than 201 are errors. *)
Definition innerChargeOrder_result (r : PostResult) : option error :=
  match r with
  | PostError err =>
      Some (ErrOther ("error making charge request: " +:+ Error err))
  | PostResponse code body =>
      if negb (code =? StatusCreated) then
        Some (ErrOther ("error charging body: " +:+ pretty code +:+ " "
                        +:+ body))
      else None
  end.

(** [innerChargeOrder]: posts to the charge service and expects a 201.
    (Encoding a string and an [int64] as JSON cannot fail, so the first
    error return of the Go function is never taken.) *)
Definition innerChargeOrder (args : chargeServiceChargeArgs)
    : Prog (option error) :=
  CallPost args (fun r => Return (innerChargeOrder_result r)).

(** [chargeOrder]; [order] is the order the middleware put in the
    context. *)
Definition chargeOrder (body : result chargeOrderArgs) (order : Order)
    : Prog Response :=
  match body with
  | Err err =>
      Return (handleError StatusBadRequest ErrCodeInvalidJSON
                ("error decoding body: " +:+ Error err))
  | Ok args =>
      if negb (Status order =? OrderStatusPending) then
        Return (handleError StatusConflict ErrCodeOrderNotEligible
                  "order ineligible for charging")
      else
        err ← innerChargeOrder {| ServiceCardToken := CardToken args;
                                  AmountCents := TotalCents order |};
        match err with
        | Some err =>
            Return (handleError StatusInternalServerError
                      ErrCodeChargeServiceError (Error err))
        | None =>
            CallSetOrderStatus (ID order) OrderStatusCharged (fun err =>
              match err with
              | Some err =>
                  Return (handleError StatusInternalServerError
                            ErrCodeInternalError
                            ("error updating order to charged: " +:+ Error err))
              | None =>
                  Return (mkResponse StatusOK (chargeOrderRes (TotalCents order)))
              end)
        end
  end.

(** [cancelOrder].  The refund block either leaves the handler with an
    error response ([inl]) or falls through with [refundedCents]. *)
Definition cancelOrder (order : Order) : Prog Response :=
  if negb (Status order =? OrderStatusPending)
     && negb (Status order =? OrderStatusCharged) then
    Return (handleError StatusConflict ErrCodeOrderNotEligible
              "order cannot be cancelled - only pending or charged orders can be cancelled")
  else
    refund ←
      (if Status order =? OrderStatusCharged then
         err ← innerChargeOrder {| ServiceCardToken := "";
                                   AmountCents := neg64 (TotalCents order) |};
         match err with
         | Some err =>
             Return (inl (handleError StatusInternalServerError
                            ErrCodeChargeServiceError
                            ("error processing refund: " +:+ Error err)))
         | None => Return (inr (TotalCents order))
         end
       else Return (inr 0));
    match refund with
    | inl response => Return response
    | inr refundedCents =>
        CallSetOrderStatus (ID order) OrderStatusCancelled (fun err =>
          match err with
          | Some err =>
              Return (handleError StatusInternalServerError ErrCodeInternalError
                        ("error cancelling order: " +:+ Error err))
          | None =>
              let response := {| Message := "order cancelled successfully";
                                 OrderID := ID order;
                                 RefundedCents := 0 |} in
              let response :=
                if 0 <? refundedCents then
                  {| Message := Message response; OrderID := OrderID response;
                     RefundedCents := refundedCents |}
                else response in
              Return (mkResponse StatusOK (cancelOrderResBody response))
          end)
    end.

(** The routes registered by [Handler].  A request is named by the route
    its path takes in the router; [GET_orders_id ""] is the request
    [GET /orders/]. *)
Inductive Request : Type :=
  | GET_healthz
  | GET_orders (status : string)
  | POST_orders (body : result postOrderArgs)
  | GET_orders_id (id : string)
  | POST_orders_id_charge (id : string) (body : result chargeOrderArgs)
  | POST_orders_id_cancel (id : string).

(** [GET /orders/] never reaches [orderFetchMiddleware]: the router (gin,
    with its default trailing-slash redirect) answers it itself with a
    permanent redirect to [/orders].  The two [POST] routes are matched
    with an empty id and do run the middleware. *)
Definition Handler (req : Request) : Prog Response :=
  match req with
  | GET_healthz => healthCheck
  | GET_orders q => getOrders q
  | POST_orders body => postOrders body
  | GET_orders_id id =>
      if decide (id = "") then
        Return (mkResponse StatusMovedPermanently (redirect "/orders"))
      else orderFetchMiddleware id getOrder
  | POST_orders_id_charge id body => orderFetchMiddleware id (chargeOrder body)
  | POST_orders_id_cancel id => orderFetchMiddleware id cancelOrder
  end.

(** One call recorded in the trace of a run, with what it returned. *)
Inductive Event : Type :=
  | EvGetOrder (id : string) (r : result Order)
  | EvGetOrders (status : OrderStatus) (r : result (slice Order))
  | EvSetOrderStatus (id : string) (status : OrderStatus) (r : option error)
  | EvInsertOrder (order : Order) (r : result string)
  | EvPost (args : chargeServiceChargeArgs) (r : PostResult).

Definition is_write (e : Event) : bool :=
  match e with
  | EvSetOrderStatus _ _ _ | EvInsertOrder _ _ => true
  | _ => false
  end.

Definition is_post (e : Event) : bool :=
  match e with EvPost _ _ => true | _ => false end.

Section Run.
Context {S : Type} `{StorageInstance S}.

(** The first pending call of a program, performed on the instance. *)
Definition step {R} (p : Prog R) (i : instance S)
    : option (Prog R * instance S * Event) :=
  match p with
  | Return _ => None
  | CallGetOrder id k =>
      let r := GetOrder (stor i) id in
      Some (k r, i, EvGetOrder id r)
  | CallGetOrders status k =>
      let r := GetOrders (stor i) status in
      Some (k r, i, EvGetOrders status r)
  | CallSetOrderStatus id status k =>
      let '(s, r) := SetOrderStatus (stor i) id status in
      Some (k r, mkInstance s (chargeService i), EvSetOrderStatus id status r)
  | CallInsertOrder order k =>
      let '(s, r) := InsertOrder (stor i) order in
      Some (k r, mkInstance s (chargeService i), EvInsertOrder order r)
  | CallPost args k =>
      let '(c, r) := Post (chargeService i) args in
      Some (k r, mkInstance (stor i) c, EvPost args r)
  end.

(** A request served from start to end with nothing in between: the
    answer, the instance afterwards, and the calls made, in order. *)
Fixpoint run {R} (p : Prog R) (i : instance S)
    : R * instance S * list Event :=
  match p with
  | Return r => (r, i, [])
  | CallGetOrder id k =>
      let r := GetOrder (stor i) id in
      let '(a, i', tr) := run (k r) i in
      (a, i', EvGetOrder id r :: tr)
  | CallGetOrders status k =>
      let r := GetOrders (stor i) status in
      let '(a, i', tr) := run (k r) i in
      (a, i', EvGetOrders status r :: tr)
  | CallSetOrderStatus id status k =>
      let '(s, r) := SetOrderStatus (stor i) id status in
      let '(a, i', tr) := run (k r) (mkInstance s (chargeService i)) in
      (a, i', EvSetOrderStatus id status r :: tr)
  | CallInsertOrder order k =>
      let '(s, r) := InsertOrder (stor i) order in
      let '(a, i', tr) := run (k r) (mkInstance s (chargeService i)) in
      (a, i', EvInsertOrder order r :: tr)
  | CallPost args k =>
      let '(c, r) := Post (chargeService i) args in
      let '(a, i', tr) := run (k r) (mkInstance (stor i) c) in
      (a, i', EvPost args r :: tr)
  end.

(** Requests served concurrently: each request is one entry of [pool];
    a schedule names, step by step, the request whose next call is
    performed.  Calls are the units of interleaving: a store call runs
    under the store's lock, and nothing else is shared. *)
Fixpoint run_schedule {R} (sched : list nat) (pool : list (Prog R))
    (i : instance S) : list (Prog R) * instance S :=
  match sched with
  | [] => (pool, i)
  | t :: sched' =>
      match pool !! t with
      | None => run_schedule sched' pool i
      | Some p =>
          match step p i with
          | None => run_schedule sched' pool i
          | Some (p', i', _) => run_schedule sched' (<[t := p']> pool) i'
          end
      end
  end.

Definition answer {R} (p : Prog R) : option R :=
  match p with Return r => Some r | _ => None end.

End Run.

(** *** Storage instances *)

(** The in-memory store together with the system's random source, which
    [InsertOrder] reads when it has to generate an id: [rand_source n] is
    the outcome of the [n]-th read. *)
Record MemoryStorage : Type := mkMemoryStorage {
  memory : Memory.MemoryInstance;
  rand_source : nat -> RandRead;
  rand_reads : nat
}.

#[global] Instance MemoryStorage_instance : StorageInstance MemoryStorage := {
  GetOrder s id := Memory.GetOrder (memory s) id;
  GetOrders s status := Memory.GetOrders (memory s) status;
  SetOrderStatus s id status :=
    let '(m, r) := Memory.SetOrderStatus (memory s) id status in
    ({| memory := m; rand_source := rand_source s; rand_reads := rand_reads s |}, r);
  InsertOrder s order :=
    let '(m, r) :=
      Memory.InsertOrder (memory s) (rand_source s (rand_reads s)) order in
    ({| memory := m; rand_source := rand_source s;
        rand_reads := if decide (ID order = "") then Datatypes.S (rand_reads s)
                      else rand_reads s |}, r)
}.

(** A storage double that answers every call from a fixed script and
    stores nothing, in the manner of the generated mock the api tests are
    run against; it exercises the handlers against a store that fails. *)
Record MockStorage : Type := mkMockStorage {
  onGetOrder : string -> result Order;
  onGetOrders : OrderStatus -> result (slice Order);
  onSetOrderStatus : string -> OrderStatus -> option error;
  onInsertOrder : Order -> result string
}.

#[global] Instance MockStorage_instance : StorageInstance MockStorage := {
  GetOrder s id := onGetOrder s id;
  GetOrders s status := onGetOrders s status;
  SetOrderStatus s id status := (s, onSetOrderStatus s id status);
  InsertOrder s order := (s, onInsertOrder s order)
}.

(** ** Vocabulary of the properties *)

(** The test applied by [GetOrders] to each stored order. *)
Definition passes (status : OrderStatus) (o : Order) : bool :=
  (status =? -1) || (Status o =? status).

(** A sequence of [InsertOrder] calls on the in-memory store, each with
    the outcome of its read of the random source; the results are listed
    in call order. *)
Fixpoint InsertOrders (i : Memory.MemoryInstance)
    (calls : list (RandRead * Order))
    : Memory.MemoryInstance * list (result string) :=
  match calls with
  | [] => (i, [])
  | (rnd, order) :: calls' =>
      let '(i1, r) := Memory.InsertOrder i rnd order in
      let '(i', rs) := InsertOrders i1 calls' in
      (i', r :: rs)
  end.

(** The ids returned by the calls that succeeded. *)
Definition inserted_ids (rs : list (result string)) : list string :=
  omap (fun r => match r with Ok id => Some id | Err _ => None end) rs.

(** The edges of the order state machine that the handlers of this
    package drive. *)
Definition legal_edge (from to : OrderStatus) : bool :=
  ((from =? OrderStatusPending) && (to =? OrderStatusCharged))
  || ((from =? OrderStatusPending) && (to =? OrderStatusCancelled))
  || ((from =? OrderStatusCharged) && (to =? OrderStatusCancelled)).

Section Serve.
Context {S : Type} `{StorageInstance S}.

(** One request served on its own, and a sequence of requests served
    one after the other. *)
Definition serve1 (req : Request) (i : instance S) : instance S :=
  (run (Handler req) i).1.2.

Definition serve (reqs : list Request) (i : instance S) : instance S :=
  fold_left (fun i req => serve1 req i) reqs i.

Fixpoint responses (reqs : list Request) (i : instance S)
    : list Response :=
  match reqs with
  | [] => []
  | req :: reqs' =>
      (run (Handler req) i).1.1 :: responses reqs' (serve1 req i)
  end.

End Serve.

(** Every order of the in-memory store is filed under its own id. *)
Definition keyed (m : Memory.MemoryInstance) : Prop :=
  map_Forall (fun id o => ID o = id) (Memory.orders m).

#[global] Instance keyed_dec (m : Memory.MemoryInstance) : Decision (keyed m).
Proof. unfold keyed. apply _. Defined.

(** An instance on a new in-memory store. *)
Definition new_instance (rand : nat -> RandRead) (reads : nat)
    (client : Client) : instance MemoryStorage :=
  mkInstance (mkMemoryStorage Memory.NewMemory rand reads) client.

(** A charge service that accepts every request. *)
Definition accepting : list chargeServiceChargeArgs ->
                       chargeServiceChargeArgs -> PostResult :=
  fun _ _ => PostResponse StatusCreated "".

(** A charge service that is down. *)
Definition refusing : list chargeServiceChargeArgs ->
                      chargeServiceChargeArgs -> PostResult :=
  fun _ _ => PostResponse StatusInternalServerError "down".

(** What serving one request can do to the map of the in-memory store:
    nothing, one [InsertOrder] of a [Pending] order, or one
    [SetOrderStatus] to [Charged] (resp. [Cancelled]) under the id field
    of a stored order that is [Pending] (resp. [Pending] or [Charged]). *)
Inductive store_step (m : Memory.MemoryInstance)
    : Memory.MemoryInstance -> Prop :=
  | step_none : store_step m m
  | step_insert rnd order :
      Status order = OrderStatusPending ->
      store_step m (Memory.InsertOrder m rnd order).1
  | step_charge id o :
      Memory.orders m !! id = Some o ->
      Status o = OrderStatusPending ->
      store_step m (Memory.SetOrderStatus m (ID o) OrderStatusCharged).1
  | step_cancel id o :
      Memory.orders m !! id = Some o ->
      Status o = OrderStatusPending \/ Status o = OrderStatusCharged ->
      store_step m (Memory.SetOrderStatus m (ID o) OrderStatusCancelled).1.

(** The scenario of two simultaneous charge requests: one [Pending] order
    created through [POST /orders] on a new store, a charge service that
    accepts everything, and two [POST /orders/:id/charge] requests for
    that order. *)
Definition race_rand : nat -> RandRead := fun _ => RandFill [x01].

Definition race_id : string := "01000000000000000000000000000000".

Definition race_start : instance MemoryStorage :=
  serve [POST_orders (Ok (mkPostOrderArgs "a@b" [mkLineItem "Widget" 1000 2]))]
        (new_instance race_rand 0 (mkClient accepting [])).

Definition race_request : Request :=
  POST_orders_id_charge race_id (Ok (mkChargeOrderArgs "tok")).

(** Both requests fetch the order, then both post their charge, then both
    write the status. *)
Definition race_schedule : list nat := [0; 1; 0; 1; 0; 1]%nat.

(** The answer of [chargeOrder] to a request it finds ineligible. *)
Definition NotEligible_charge : Response :=
  mkResponse 409 (errorResponse "order_not_eligible"
    "order ineligible for charging").

(** *** Scenarios the properties are exercised on *)

Definition widget : postOrderArgs :=
  mkPostOrderArgs "a@b" [mkLineItem "Widget" 1000 2].

Definition race_order : Order :=
  mkOrder race_id "a@b" [mkLineItem "Widget" 1000 2] OrderStatusPending.

(** The order of [race_start] once charged, with a charge service that
    has gone down since. *)
Definition charged_then_down : instance MemoryStorage :=
  mkInstance (stor (serve [race_request] race_start)) (mkClient refusing []).

(** A fully discounted order, created and charged through the handlers. *)
Definition free_args : postOrderArgs :=
  mkPostOrderArgs "a@b"
    [mkLineItem "Widget" 1000 1; mkLineItem "Discount" (-1000) 1].

Definition free_charged : instance MemoryStorage :=
  serve [POST_orders (Ok free_args); race_request]
        (new_instance race_rand 0 (mkClient accepting [])).

(** A scripted store that returns a charged order and refuses writes. *)
Definition read_only : MockStorage :=
  {| onGetOrder := fun id => Ok (with_Status race_order OrderStatusCharged);
     onGetOrders := fun _ => Ok nil_slice;
     onSetOrderStatus := fun _ _ => Some (ErrOther "read-only store");
     onInsertOrder := fun _ => Err (ErrOther "read-only store") |}.

(** A storage on which a status write that returns an error has changed
    no answer of [GetOrder]. *)
Definition failed_write_keeps_orders (S : Type) `{StorageInstance S} : Prop :=
  forall (s s' : S) id status e,
    SetOrderStatus s id status = (s', Some e) ->
    forall id', GetOrder s' id' = GetOrder s id'.

(** A store that already holds a fulfilled order. *)
Definition fulfilled_order : Order :=
  mkOrder "f1" "c@d" [mkLineItem "Gadget" 500 1] OrderStatusFulfilled.

Definition with_fulfilled : instance MemoryStorage :=
  mkInstance
    (mkMemoryStorage (Memory.mkMemory {[ "f1" := fulfilled_order ]})
       race_rand 0)
    (mkClient accepting []).

(** The same store after a [POST /orders]: a fulfilled and a pending
    order. *)
Definition two_orders : instance MemoryStorage :=
  serve [POST_orders (Ok widget)] with_fulfilled.

(** *** Vocabulary of the further properties *)

(** A call that changes the in-memory store, and a sequence of such calls
    applied one after the other. *)
Inductive StoreOp : Type :=
  | OpInsertOrder (rnd : RandRead) (order : Order)
  | OpSetOrderStatus (id : string) (status : OrderStatus).

Definition apply_op (m : Memory.MemoryInstance) (op : StoreOp)
    : Memory.MemoryInstance :=
  match op with
  | OpInsertOrder rnd order => (Memory.InsertOrder m rnd order).1
  | OpSetOrderStatus id status => (Memory.SetOrderStatus m id status).1
  end.

Definition apply_ops (ops : list StoreOp) (m : Memory.MemoryInstance)
    : Memory.MemoryInstance :=
  fold_left apply_op ops m.

(** The value of a lower-case hexadecimal digit, and the bytes a string of
    such digits stands for: the inverse of [EncodeToString], used to tell
    generated ids apart. *)
Definition unhex_digit (c : ascii) : option N :=
  (fix find (n : nat) (digits : list ascii) : option N :=
     match digits with
     | [] => None
     | d :: rest => if Ascii.eqb c d then Some (N.of_nat n)
                    else find (Datatypes.S n) rest
     end) 0%nat (list_ascii_of_string hextable).

Fixpoint unhex (s : string) : option (list byte) :=
  match s with
  | EmptyString => Some []
  | String _ EmptyString => None
  | String hi (String lo rest) =>
      match unhex_digit hi, unhex_digit lo, unhex rest with
      | Some h, Some l, Some bytes =>
          match Byte.of_N (h * 16 + l) with
          | Some b => Some (b :: bytes)
          | None => None
          end
      | _, _, _ => None
      end
  end.

Definition is_hexdigit (c : ascii) : bool :=
  match unhex_digit c with Some _ => true | None => false end.

(** What [postOrders] requires of an order before it stores it. *)
Definition accepted (o : Order) : Prop :=
  In "@"%char (list_ascii_of_string (CustomerEmail o)) /\
  LineItems o <> [] /\ 0 <= TotalCents o.

(** The routes that only look things up. *)
Definition is_read_route (req : Request) : bool :=
  match req with
  | GET_healthz | GET_orders _ | GET_orders_id _ => true
  | _ => false
  end.

(** The routes that work on one order, whatever the route. *)
Definition order_routes (id : string) (body : result chargeOrderArgs)
    : list Request :=
  [GET_orders_id id; POST_orders_id_charge id body; POST_orders_id_cancel id].

(** The status tokens [getOrders] understands. *)
Definition status_tokens : list string :=
  ["pending"; "charged"; "fulfilled"; "cancelled"; ""].

(** A call that neither writes to the store nor posts to the charge
    service. *)
Definition quiet (e : Event) : bool := negb (is_write e) && negb (is_post e).

(** The order [postOrders] builds from the decoded body. *)
Definition order_of_args (args : postOrderArgs) : Order :=
  {| ID := ""; CustomerEmail := ArgCustomerEmail args;
     LineItems := ArgLineItems args; Status := OrderStatusPending |}.


Definition NotEligible_cancel : Response :=
  mkResponse 409 (errorResponse "order_not_eligible"
    "order cannot be cancelled - only pending or charged orders can be cancelled").


(** What holds of every order the handlers have stored under [id]. *)
Definition sound_order (id : string) (o : Order) : Prop :=
  accepted o /\ ID o = id /\ id <> "" /\
  (Status o = OrderStatusPending \/ Status o = OrderStatusCharged \/
   Status o = OrderStatusCancelled).

(** * Properties *)

(** ** The model at work *)

Example ex_hex : EncodeToString [x00; xff; x1a] = "00ff1a".
Proof. reflexivity. Qed.

Example ex_contains : Contains "a@b" "@" = true /\ Contains "ab" "@" = false.
Proof. split; reflexivity. Qed.

Example ex_total : TotalCents race_order = 2000.
Proof. reflexivity. Qed.

(** An order for two widgets is created, charged and cancelled: the
    charge service is asked for 2000, then for -2000, and the last
    response carries [refundedCents = 2000]. *)
Example ex_lifecycle :
  let i := serve [race_request; POST_orders_id_cancel race_id] race_start in
  responses [race_request; POST_orders_id_cancel race_id] race_start
  = [mkResponse StatusOK (chargeOrderRes 2000);
     mkResponse StatusOK
       (cancelOrderResBody
          (mkCancelOrderRes "order cancelled successfully" race_id 2000))] /\
  Requests (chargeService i)
  = [mkChargeArgs "tok" 2000; mkChargeArgs "" (-2000)] /\
  GetOrder (stor i) race_id = Ok (with_Status race_order OrderStatusCancelled).
Proof. vm_compute. auto. Qed.
(** ** The order store *)

Section MemoryFacts.
Import Memory.

(** What the loop of [GetOrders] has collected, whatever it started
    from: the visited orders that pass the filter, in visiting order. *)
Lemma GetOrders_loop_elems status visited (acc : slice Order) :
  elems (fold_left
           (fun (acc : slice Order) (kv : string * Order) =>
              if (status =? -1) || (Status kv.2 =? status)
              then append acc kv.2 else acc) visited acc)
  = elems acc ++ filter (fun o => passes status o = true) visited.*2.
Proof.
  revert acc. induction visited as [|[k o] visited IH]; intros acc; simpl.
  - by rewrite app_nil_r.
  - rewrite IH, filter_cons.
    change ((status =? -1) || (Status o =? status)) with (passes status o).
    destruct (decide (passes status o = true)) as [Hp|Hp].
    + rewrite Hp. simpl. by rewrite <- app_assoc.
    + apply not_true_is_false in Hp. by rewrite Hp.
Qed.

Lemma GetOrders_range_elems status visited :
  elems (GetOrders_range status visited)
  = filter (fun o => passes status o = true) visited.*2.
Proof. unfold GetOrders_range. by rewrite GetOrders_loop_elems. Qed.

(** The loop leaves the slice nil exactly when nothing passes. *)
Lemma GetOrders_loop_nil status visited (acc : slice Order) :
  fold_left
    (fun (acc : slice Order) (kv : string * Order) =>
       if (status =? -1) || (Status kv.2 =? status)
       then append acc kv.2 else acc) visited acc = None
  <-> acc = None /\ filter (fun o => passes status o = true) visited.*2 = [].
Proof.
  revert acc. induction visited as [|[k o] visited IH]; intros acc; simpl.
  - split; [by intros ->|by intros [-> _]].
  - rewrite IH, filter_cons.
    change ((status =? -1) || (Status o =? status)) with (passes status o).
    destruct (decide (passes status o = true)) as [Hp|Hp].
    + rewrite Hp. unfold append. split; intros [E1 E2]; discriminate.
    + apply not_true_is_false in Hp. by rewrite Hp.
Qed.

Lemma GetOrders_range_nil status visited :
  GetOrders_range status visited = nil_slice
  <-> filter (fun o => passes status o = true) visited.*2 = [].
Proof.
  unfold GetOrders_range. rewrite GetOrders_loop_nil. unfold nil_slice.
  split; [by intros [_ E]|by intros E].
Qed.

Lemma passes_concrete status o :
  status <> -1 -> passes status o = true <-> Status o = status.
Proof.
  intros Hne. unfold passes.
  destruct (Z.eqb_spec status (-1)); [done|]. simpl.
  destruct (Z.eqb_spec (Status o) status); split; congruence.
Qed.

Lemma filter_passes_all (l : list Order) :
  filter (fun o => passes (-1) o = true) l = l.
Proof.
  induction l as [|o l IH]; [done|].
  rewrite filter_cons, decide_True by done. by rewrite IH.
Qed.

Lemma filter_passes_concrete status (l : list Order) :
  status <> -1 ->
  filter (fun o => passes status o = true) l
  = filter (fun o => Status o = status) l.
Proof.
  intros Hne. apply list_filter_iff. intros o. by apply passes_concrete.
Qed.

End MemoryFacts.

Section MemoryClaims.
Import Memory.

Lemma EncodeToString_length src :
  String.length (EncodeToString src) = (2 * length src)%nat.
Proof. induction src as [|v src IH]; simpl; lia. Qed.

Lemma fill16_length src : length (fill16 src) = 16%nat.
Proof.
  unfold fill16. rewrite length_take, length_app, length_replicate. lia.
Qed.

(** A generated id is 32 characters long, hence never empty. *)
Lemma generated_id_nonempty src : EncodeToString (fill16 src) <> "".
Proof.
  intros E. apply (f_equal String.length) in E.
  rewrite EncodeToString_length, fill16_length in E. discriminate.
Qed.

Lemma InsertOrder_Ok i rnd order i' id :
  InsertOrder i rnd order = (i', Ok id) ->
  orders i !! id = None /\
  (exists stored, ID stored = id /\ orders i' = <[id := stored]> (orders i)).
Proof.
  unfold InsertOrder. intros E.
  destruct (decide (ID order = "")); [destruct rnd|]; simpl in E;
    try discriminate;
    match type of E with
    | context [orders i !! ?k] => destruct (orders i !! k) eqn:L
    end; simplify_eq; (split; [done|]); eexists; (split; [|reflexivity]); done.
Qed.

Lemma InsertOrder_Err i rnd order i' e :
  InsertOrder i rnd order = (i', Err e) -> i' = i.
Proof.
  unfold InsertOrder. intros E.
  destruct (decide (ID order = "")); [destruct rnd|]; simpl in E;
    try (by simplify_eq);
    match type of E with
    | context [orders i !! ?k] => destruct (orders i !! k) eqn:L
    end; by simplify_eq.
Qed.

(** [InsertOrder] never touches a record that is already stored. *)
Lemma InsertOrder_keeps i rnd order id o :
  orders i !! id = Some o -> orders (InsertOrder i rnd order).1 !! id = Some o.
Proof.
  intros L. destruct (InsertOrder i rnd order) as [i' [id'|e]] eqn:E; simpl.
  - apply InsertOrder_Ok in E as [Hnone (stored & _ & ->)].
    rewrite lookup_insert_ne; [done|congruence].
  - apply InsertOrder_Err in E. by subst.
Qed.

Lemma InsertOrders_keeps calls : forall i id o,
  orders i !! id = Some o -> orders (InsertOrders i calls).1 !! id = Some o.
Proof.
  induction calls as [|[rnd order] calls IH]; intros i id o L; simpl; [done|].
  pose proof (InsertOrder_keeps i rnd order id o L) as L1.
  destruct (InsertOrder i rnd order) as [i1 r]. simpl in L1.
  specialize (IH i1 id o L1).
  destruct (InsertOrders i1 calls) as [i' rs]. done.
Qed.

Lemma InsertOrders_ids calls : forall i,
  NoDup (inserted_ids (InsertOrders i calls).2) /\
  (forall id, id ∈ inserted_ids (InsertOrders i calls).2 ->
              orders i !! id = None /\
              is_Some (orders (InsertOrders i calls).1 !! id)).
Proof.
  induction calls as [|[rnd order] calls IH]; intros i; simpl.
  - split; [constructor|]. intros id Hin. by apply elem_of_nil in Hin.
  - destruct (InsertOrder i rnd order) as [i1 r] eqn:E.
    destruct (IH i1) as [Hnd Hfresh].
    pose proof (InsertOrders_keeps calls i1) as Hkeep.
    destruct (InsertOrders i1 calls) as [i' rs]. simpl in *.
    destruct r as [id|e]; unfold inserted_ids in *; simpl.
    + apply InsertOrder_Ok in E as [Hnone (stored & Hid & Hi1)].
      split.
      * constructor; [|done]. intros Hin.
        destruct (Hfresh _ Hin) as [Hn _].
        rewrite Hi1, lookup_insert_eq in Hn. discriminate.
      * intros id' Hin. apply elem_of_cons in Hin as [->|Hin].
        -- split; [done|]. eexists. apply Hkeep.
           rewrite Hi1. apply lookup_insert_eq.
        -- destruct (Hfresh _ Hin) as [Hn Hs]. split; [|done].
           rewrite Hi1 in Hn.
           destruct (decide (id = id')) as [->|Hne].
           ++ rewrite lookup_insert_eq in Hn. discriminate.
           ++ by rewrite lookup_insert_ne in Hn.
    + apply InsertOrder_Err in E. subst i1. done.
Qed.

(** C5.  Ids are unique across any sequence of [InsertOrder] calls: the
    ids returned by the successful calls are pairwise distinct and were
    all free in the store the sequence started from.  A call whose id
    (supplied by the caller, or generated because the order came with an
    empty id) is already taken returns [ErrOrderExists] and leaves the
    whole store as it was; no call ever changes a record that is already
    stored; and an order that comes with an empty id is stored under a
    freshly generated, non-empty id (32 hexadecimal digits drawn from
    the random source) whenever that id is free. *)
Theorem InsertOrder_unique_ids (i : MemoryInstance)
    (calls : list (RandRead * Order)) (rnd : RandRead) (src : list byte)
    (order : Order) :
  (NoDup (inserted_ids (InsertOrders i calls).2) /\
   forall id, id ∈ inserted_ids (InsertOrders i calls).2 ->
              orders i !! id = None) /\
  (ID order <> "" -> is_Some (orders i !! ID order) ->
   InsertOrder i rnd order = (i, Err ErrOrderExists)) /\
  (ID order = "" -> is_Some (orders i !! EncodeToString (fill16 src)) ->
   InsertOrder i (RandFill src) order = (i, Err ErrOrderExists)) /\
  (forall id o, orders i !! id = Some o ->
                orders (InsertOrder i rnd order).1 !! id = Some o) /\
  (ID order = "" ->
   let id := EncodeToString (fill16 src) in
   id <> "" /\
   (orders i !! id = None ->
    InsertOrder i (RandFill src) order
    = ({| orders := <[id := with_ID order id]> (orders i) |}, Ok id))).
Proof.
  repeat split.
  - apply InsertOrders_ids.
  - intros id Hin. by apply (InsertOrders_ids calls i).
  - intros Hne [o L]. unfold InsertOrder.
    rewrite decide_False by done. by rewrite L.
  - intros He [o L]. unfold InsertOrder.
    rewrite decide_True by done. simpl. by rewrite L.
  - intros id o. apply InsertOrder_keeps.
  - apply generated_id_nonempty.
  - intros L. unfold InsertOrder.
    rewrite decide_True by done. simpl. by rewrite L.
Qed.

(** C8.  [SetOrderStatus] on an id that is not stored returns
    [ErrOrderNotFound] and leaves the store as it was.  On a stored id
    it succeeds for every requested status, whatever the current one:
    the record under that id keeps its id, customer email and line
    items and gets the requested status, and the record under every
    other id is untouched. *)
Theorem SetOrderStatus_frame (i : MemoryInstance) (id : string)
    (status : OrderStatus) :
  match orders i !! id with
  | None => SetOrderStatus i id status = (i, Some ErrOrderNotFound)
  | Some o =>
      (SetOrderStatus i id status).2 = None /\
      (exists o', orders (SetOrderStatus i id status).1 !! id = Some o' /\
                  Status o' = status /\ ID o' = ID o /\
                  CustomerEmail o' = CustomerEmail o /\
                  LineItems o' = LineItems o) /\
      (forall id', id' <> id ->
         orders (SetOrderStatus i id status).1 !! id' = orders i !! id')
  end.
Proof.
  unfold SetOrderStatus. destruct (orders i !! id) as [o|] eqn:L; [|done].
  simpl. split; [done|]. split.
  - exists (with_Status o status). by rewrite lookup_insert_eq.
  - intros id' Hne. by rewrite lookup_insert_ne.
Qed.

End MemoryClaims.

Section ListClaims.

(** C7, as amended.  Whatever order the map iteration visits the
    entries in, [GetOrders] with the filter [-1] returns every stored
    order and with any other filter exactly the stored orders of that
    status, each as often as it is stored (a permutation of the stored
    orders that qualify).  When no stored order qualifies the store's
    result is a nil slice, not an empty sequence, and it is a nil slice
    only then; [getOrders] replaces it, so that the response of
    [GET /orders] always carries a sequence, empty when nothing
    qualifies. *)
Theorem GetOrders_filter_correct (i : instance MemoryStorage)
    (visited : list (string * Order)) (status : OrderStatus) (q : string) :
  Memory.iteration_of (memory (stor i)) visited ->
  elems (Memory.GetOrders_range (-1) visited)
    ≡ₚ (map_to_list (Memory.orders (memory (stor i)))).*2 /\
  (status <> -1 ->
   elems (Memory.GetOrders_range status visited)
     ≡ₚ filter (fun o => Status o = status)
          (map_to_list (Memory.orders (memory (stor i)))).*2) /\
  (Memory.GetOrders_range status visited = nil_slice <->
   filter (fun o => passes status o = true)
     (map_to_list (Memory.orders (memory (stor i)))).*2 = []) /\
  (status_of_query q = Some status ->
   exists l,
     run (Handler (GET_orders q)) i
     = (mkResponse 200 (getOrdersRes (Some l)), i,
        [EvGetOrders status (GetOrders (stor i) status)]) /\
     l ≡ₚ filter (fun o => passes status o = true)
            (map_to_list (Memory.orders (memory (stor i)))).*2 /\
     (filter (fun o => passes status o = true)
        (map_to_list (Memory.orders (memory (stor i)))).*2 = [] -> l = [])).
Proof.
  intros Hit. unfold Memory.iteration_of in Hit.
  split; [|split; [|split]].
  - rewrite GetOrders_range_elems, filter_passes_all. by rewrite Hit.
  - intros Hne. rewrite GetOrders_range_elems, filter_passes_concrete by done.
    by rewrite Hit.
  - rewrite GetOrders_range_nil.
    assert (filter (fun o => passes status o = true) visited.*2
            ≡ₚ filter (fun o => passes status o = true)
                 (map_to_list (Memory.orders (memory (stor i)))).*2) as Hp
      by (by rewrite Hit).
    split; intros E; rewrite E in Hp.
    + symmetry in Hp. by apply Permutation_nil_r in Hp.
    + by apply Permutation_nil_r in Hp.
  - intros Hq. simpl. unfold getOrders. rewrite Hq. simpl.
    unfold Memory.GetOrders.
    pose proof (GetOrders_range_elems status
                  (map_to_list (Memory.orders (memory (stor i))))) as He.
    destruct (Memory.GetOrders_range status
                (map_to_list (Memory.orders (memory (stor i)))))
      as [l|] eqn:E; simpl in He.
    + exists l. split; [done|]. rewrite <- He. split; [done|]. done.
    + exists []. split; [done|]. rewrite <- He. done.
Qed.

(** C7 as first stated fails on the store: with no order to return,
    [GetOrders] returns a nil slice (Go's null slice), which is not the
    empty sequence; so it does on a new store for the filter [-1] and on
    a store whose only order is fulfilled for the filter [Pending]. *)
Lemma GetOrders_returns_nil_slice :
  Memory.GetOrders Memory.NewMemory (-1) = Ok nil_slice /\
  Memory.GetOrders (memory (stor with_fulfilled)) OrderStatusPending
  = Ok nil_slice /\
  (nil_slice : slice Order) <> Some [].
Proof. split; [|split]; [vm_compute; reflexivity..|discriminate]. Qed.

End ListClaims.

(** ** Arithmetic of [int64] *)

Lemma wrap64_range z : in_int64 (wrap64 z).
Proof.
  unfold in_int64, wrap64, min_int64, max_int64.
  pose proof (Z.mod_pos_bound (z + 2 ^ 63) (2 ^ 64) ltac:(lia)). lia.
Qed.

Lemma wrap64_id z : in_int64 z -> wrap64 z = z.
Proof.
  unfold in_int64, wrap64, min_int64, max_int64. intros Hz.
  rewrite Z.mod_small; lia.
Qed.

Lemma wrap64_add_l a b : wrap64 (wrap64 a + b) = wrap64 (a + b).
Proof.
  unfold wrap64. f_equal.
  replace ((a + 2 ^ 63) mod 2 ^ 64 - 2 ^ 63 + b + 2 ^ 63)
    with ((a + 2 ^ 63) mod 2 ^ 64 + b) by lia.
  rewrite Zplus_mod_idemp_l. f_equal. lia.
Qed.

Lemma wrap64_add_r a b : wrap64 (a + wrap64 b) = wrap64 (a + b).
Proof. rewrite Z.add_comm, wrap64_add_l. f_equal. lia. Qed.

(** [TotalCents] is the exact sum brought into the [int64] range; it is
    the exact sum whenever that fits. *)
Lemma TotalCents_wrap o : TotalCents o = wrap64 (exact_total (LineItems o)).
Proof.
  unfold TotalCents.
  assert (forall items acc,
            fold_left (fun total li =>
                         add64 total (mul64 (PriceCents li) (Quantity li)))
                      items (wrap64 acc)
            = wrap64 (acc + exact_total items)) as Hgen.
  { induction items as [|li items IH]; intros acc; simpl.
    - f_equal. lia.
    - unfold add64 at 2, mul64 at 2. rewrite wrap64_add_l, wrap64_add_r.
      rewrite IH. f_equal. lia. }
  specialize (Hgen (LineItems o) 0). rewrite wrap64_id in Hgen; [|done].
  by rewrite Hgen.
Qed.

Lemma TotalCents_exact o :
  in_int64 (exact_total (LineItems o)) ->
  TotalCents o = exact_total (LineItems o).
Proof. intros Hr. by rewrite TotalCents_wrap, wrap64_id. Qed.

Lemma TotalCents_range o : in_int64 (TotalCents o).
Proof. rewrite TotalCents_wrap. apply wrap64_range. Qed.

(** Go's unary minus on [int64] is the integer opposite, except on the
    least value, which it leaves in place. *)
Lemma neg64_opp z : in_int64 z -> z <> min_int64 -> neg64 z = - z.
Proof.
  unfold neg64. intros Hz Hne. apply wrap64_id.
  unfold in_int64, min_int64, max_int64 in *. lia.
Qed.

(** ** [strings.Contains] on a one-character pattern *)

Lemma Contains_char (c : ascii) (s : string) :
  Contains s (String c "") = true <-> In c (list_ascii_of_string s).
Proof.
  induction s as [|a s IH]; simpl.
  - split; [discriminate|tauto].
  - rewrite orb_true_iff, IH.
    destruct (ascii_dec c a) as [->|Hne].
    + split; [tauto|]. intros _. left. by destruct s.
    + split.
      * intros [Hp|Hin]; [discriminate|tauto].
      * intros [He|Hin]; [congruence|tauto].
Qed.
(** A failed [SetOrderStatus] of the in-memory store changes nothing: it
    fails only when the id is not stored, and then returns before any
    assignment. *)
Lemma MemoryStorage_failed_write : failed_write_keeps_orders MemoryStorage.
Proof.
  intros s s' id status e H id'. simpl in H. unfold Memory.SetOrderStatus in H.
  destruct (Memory.orders (memory s) !! id) eqn:E; simpl in H.
  - discriminate.
  - injection H as <- _. reflexivity.
Qed.

(** The scripted storage of the tests never changes. *)
Lemma MockStorage_failed_write : failed_write_keeps_orders MockStorage.
Proof. intros s s' id status e H id'. simpl in H. by injection H as <- _. Qed.

(** ** The handlers, against any storage *)

Section HandlerClaims.
Context {S : Type} `{StorageInstance S}.

Lemma run_orderFetchMiddleware (i : instance S) id o next :
  id <> "" -> GetOrder (stor i) id = Ok o ->
  run (orderFetchMiddleware id next) i
  = ((run (next o) i).1.1, (run (next o) i).1.2,
     EvGetOrder id (Ok o) :: (run (next o) i).2).
Proof.
  intros Hid Hget. unfold orderFetchMiddleware.
  rewrite decide_False by done. simpl. rewrite Hget.
  by destruct (run (next o) i) as [[a i'] tr].
Qed.

Lemma run_chargeOrder (i : instance S) args o :
  run (chargeOrder (Ok args) o) i
  = if negb (Status o =? OrderStatusPending) then
      (handleError StatusConflict ErrCodeOrderNotEligible
         "order ineligible for charging", i, [])
    else
      let payment := {| ServiceCardToken := CardToken args;
                        AmountCents := TotalCents o |} in
      let posted := Post (chargeService i) payment in
      match innerChargeOrder_result posted.2 with
      | Some err =>
          (handleError StatusInternalServerError ErrCodeChargeServiceError
             (Error err),
           mkInstance (stor i) posted.1, [EvPost payment posted.2])
      | None =>
          let written := SetOrderStatus (stor i) (ID o) OrderStatusCharged in
          (match written.2 with
           | Some err =>
               handleError StatusInternalServerError ErrCodeInternalError
                 ("error updating order to charged: " +:+ Error err)
           | None => mkResponse StatusOK (chargeOrderRes (TotalCents o))
           end,
           mkInstance written.1 posted.1,
           [EvPost payment posted.2;
            EvSetOrderStatus (ID o) OrderStatusCharged written.2])
      end.
Proof.
  unfold chargeOrder.
  destruct (negb (Status o =? OrderStatusPending)); [done|].
  cbn -[Post innerChargeOrder_result].
  destruct (Post (chargeService i) _) as [c r]. simpl fst. simpl snd.
  destruct (innerChargeOrder_result r) as [err|]; [done|].
  cbn -[SetOrderStatus].
  destruct (SetOrderStatus (stor i) (ID o) OrderStatusCharged) as [s [err|]];
    done.
Qed.

Lemma run_cancelOrder (i : instance S) o :
  run (cancelOrder o) i
  = if negb (Status o =? OrderStatusPending)
       && negb (Status o =? OrderStatusCharged) then
      (handleError StatusConflict ErrCodeOrderNotEligible
         "order cannot be cancelled - only pending or charged orders can be cancelled",
       i, [])
    else
      let refund := {| ServiceCardToken := "";
                       AmountCents := neg64 (TotalCents o) |} in
      let posted := Post (chargeService i) refund in
      let charged := Status o =? OrderStatusCharged in
      match (if charged then innerChargeOrder_result posted.2 else None) with
      | Some err =>
          (handleError StatusInternalServerError ErrCodeChargeServiceError
             ("error processing refund: " +:+ Error err),
           mkInstance (stor i) posted.1, [EvPost refund posted.2])
      | None =>
          let client := if charged then posted.1 else chargeService i in
          let refundedCents := if charged then TotalCents o else 0 in
          let written :=
            SetOrderStatus (stor i) (ID o) OrderStatusCancelled in
          (match written.2 with
           | Some err =>
               handleError StatusInternalServerError ErrCodeInternalError
                 ("error cancelling order: " +:+ Error err)
           | None =>
               mkResponse StatusOK
                 (cancelOrderResBody
                    {| Message := "order cancelled successfully";
                       OrderID := ID o;
                       RefundedCents :=
                         if 0 <? refundedCents then refundedCents else 0 |})
           end,
           mkInstance written.1 client,
           (if charged then [EvPost refund posted.2] else [])
           ++ [EvSetOrderStatus (ID o) OrderStatusCancelled written.2])
      end.
Proof.
  unfold cancelOrder.
  destruct (negb (Status o =? OrderStatusPending)
            && negb (Status o =? OrderStatusCharged)); [done|].
  destruct (Status o =? OrderStatusCharged).
  - cbn -[Post innerChargeOrder_result SetOrderStatus Z.ltb].
    destruct (Post (chargeService i) _) as [c r]. simpl fst. simpl snd.
    destruct (innerChargeOrder_result r) as [err|]; [done|].
    cbn -[SetOrderStatus Z.ltb].
    destruct (SetOrderStatus (stor i) (ID o) OrderStatusCancelled)
      as [s [err|]]; [done|].
    simpl. by destruct (0 <? TotalCents o).
  - cbn -[SetOrderStatus].
    destruct (SetOrderStatus (stor i) (ID o) OrderStatusCancelled)
      as [s [err|]]; done.
Qed.

Local Ltac fetch Hid Hget :=
  simpl Handler; rewrite (run_orderFetchMiddleware _ _ _ _ Hid Hget).

(** C3.  [ChargeOrder] on an order the store returns for the id.  If
    its status is not [Pending]: [NotEligible] (409 order_not_eligible),
    the instance is left as it was and the only call made is the fetch
    (no charge call, no write).  If it is [Pending] and the charge call
    fails: [ChargeServiceError] (500 charge_service_error) carrying the
    message of the charge error, the store is left as it was.  If the
    charge call succeeds: [SetOrderStatus] is called for the fetched
    order's id with [Charged]; its failure is answered with
    [InternalError] (500 internal_error), its success with 200 and
    [chargedCents] equal to the order's [TotalCents]. *)
Theorem chargeOrder_behaviour (i : instance S) (id : string)
    (args : chargeOrderArgs) (o : Order) :
  id <> "" -> GetOrder (stor i) id = Ok o ->
  let req := POST_orders_id_charge id (Ok args) in
  let fetched := EvGetOrder id (Ok o) in
  let payment := {| ServiceCardToken := CardToken args;
                    AmountCents := TotalCents o |} in
  let posted := Post (chargeService i) payment in
  let written := SetOrderStatus (stor i) (ID o) OrderStatusCharged in
  (Status o <> OrderStatusPending ->
   run (Handler req) i
   = (mkResponse 409 (errorResponse "order_not_eligible"
        "order ineligible for charging"), i, [fetched])) /\
  (Status o = OrderStatusPending ->
   forall err, innerChargeOrder_result posted.2 = Some err ->
   run (Handler req) i
   = (mkResponse 500 (errorResponse "charge_service_error"
        (Error err)),
      mkInstance (stor i) posted.1, [fetched; EvPost payment posted.2])) /\
  (Status o = OrderStatusPending ->
   innerChargeOrder_result posted.2 = None ->
   run (Handler req) i
   = (match written.2 with
      | Some err =>
          mkResponse 500 (errorResponse "internal_error"
            ("error updating order to charged: " +:+ Error err))
      | None => mkResponse 200 (chargeOrderRes (TotalCents o))
      end,
      mkInstance written.1 posted.1,
      [fetched; EvPost payment posted.2;
       EvSetOrderStatus (ID o) OrderStatusCharged written.2])).
Proof.
  intros Hid Hget req fetched payment posted written. subst req.
  repeat split.
  - intros Hst. fetch Hid Hget. rewrite run_chargeOrder.
    apply Z.eqb_neq in Hst. by rewrite Hst.
  - intros Hst err Herr. fetch Hid Hget. rewrite run_chargeOrder.
    apply Z.eqb_eq in Hst. rewrite Hst. simpl negb. cbv iota zeta.
    fold payment. fold posted. by rewrite Herr.
  - intros Hst Hok. fetch Hid Hget. rewrite run_chargeOrder.
    apply Z.eqb_eq in Hst. rewrite Hst. simpl negb. cbv iota zeta.
    fold payment. fold posted. by rewrite Hok.
Qed.

Lemma run_cancel_charged (i : instance S) id o :
  id <> "" -> GetOrder (stor i) id = Ok o ->
  Status o = OrderStatusCharged ->
  let refund := {| ServiceCardToken := "";
                   AmountCents := neg64 (TotalCents o) |} in
  let posted := Post (chargeService i) refund in
  let written := SetOrderStatus (stor i) (ID o) OrderStatusCancelled in
  run (Handler (POST_orders_id_cancel id)) i
  = match innerChargeOrder_result posted.2 with
    | Some err =>
        (mkResponse 500 (errorResponse "charge_service_error"
           ("error processing refund: " +:+ Error err)),
         mkInstance (stor i) posted.1,
         [EvGetOrder id (Ok o); EvPost refund posted.2])
    | None =>
        (match written.2 with
         | Some err =>
             mkResponse 500 (errorResponse "internal_error"
               ("error cancelling order: " +:+ Error err))
         | None =>
             mkResponse 200
               (cancelOrderResBody
                  {| Message := "order cancelled successfully";
                     OrderID := ID o;
                     RefundedCents :=
                       if 0 <? TotalCents o then TotalCents o else 0 |})
         end,
         mkInstance written.1 posted.1,
         [EvGetOrder id (Ok o); EvPost refund posted.2;
          EvSetOrderStatus (ID o) OrderStatusCancelled written.2])
    end.
Proof.
  intros Hid Hget Hst refund posted written.
  fetch Hid Hget. rewrite run_cancelOrder. rewrite Hst.
  change (OrderStatusCharged =? OrderStatusCharged) with true.
  change (OrderStatusCharged =? OrderStatusPending) with false.
  cbv beta iota zeta. simpl negb. simpl andb. cbv iota.
  fold refund. fold posted. fold written.
  by destruct (innerChargeOrder_result posted.2).
Qed.

(** C2.  [CancelOrder] on a [Charged] order posts the refund, with an
    empty card token and the negated total as amount, right after the
    fetch and before any write to the store.  When that call fails the
    answer is [ChargeServiceError] (500 charge_service_error), no write
    is made, the store is left as it was and still returns the order as
    [Charged]. *)
Theorem cancelOrder_refund_gating (i : instance S) (id : string) (o : Order) :
  id <> "" -> GetOrder (stor i) id = Ok o ->
  Status o = OrderStatusCharged ->
  let req := POST_orders_id_cancel id in
  let refund := {| ServiceCardToken := "";
                   AmountCents := neg64 (TotalCents o) |} in
  let posted := Post (chargeService i) refund in
  (TotalCents o <> min_int64 -> AmountCents refund = - TotalCents o) /\
  (exists rest,
     (run (Handler req) i).2
     = EvGetOrder id (Ok o) :: EvPost refund posted.2 :: rest /\
     forallb (fun e => negb (is_post e)) rest = true) /\
  (forall err, innerChargeOrder_result posted.2 = Some err ->
     run (Handler req) i
     = (mkResponse 500 (errorResponse "charge_service_error"
          ("error processing refund: " +:+ Error err)),
        mkInstance (stor i) posted.1,
        [EvGetOrder id (Ok o); EvPost refund posted.2]) /\
     GetOrder (stor (run (Handler req) i).1.2) id = Ok o /\
     Status o = OrderStatusCharged).
Proof.
  intros Hid Hget Hst req refund posted. subst req.
  pose proof (run_cancel_charged i id o Hid Hget Hst) as Hrun.
  cbv zeta in Hrun. fold refund in Hrun. fold posted in Hrun.
  split; [|split].
  - intros Hne. simpl. apply neg64_opp; [apply TotalCents_range|done].
  - rewrite Hrun. destruct (innerChargeOrder_result posted.2).
    + by exists [].
    + by eexists [_].
  - intros err Herr. rewrite Hrun, Herr. done.
Qed.

(** C9.  [CancelOrder] on a [Charged] order whose refund call succeeds
    and whose [SetOrderStatus] then fails: the answer is 500
    internal_error; the refund has been posted and nothing is posted
    after it, and the failed write is the last call made (no
    compensation, no retry).  On a storage whose failed writes leave
    every order as it was, the order is still stored as it was before
    the request, that is [Charged], although it has been refunded; the
    in-memory store is such a storage. *)
Theorem cancelOrder_refund_then_failed_write (i : instance S) (id : string)
    (o : Order) (err : error) :
  id <> "" -> GetOrder (stor i) id = Ok o ->
  Status o = OrderStatusCharged ->
  let req := POST_orders_id_cancel id in
  let refund := {| ServiceCardToken := "";
                   AmountCents := neg64 (TotalCents o) |} in
  let posted := Post (chargeService i) refund in
  let written := SetOrderStatus (stor i) (ID o) OrderStatusCancelled in
  innerChargeOrder_result posted.2 = None ->
  written.2 = Some err ->
  run (Handler req) i
  = (mkResponse 500 (errorResponse "internal_error"
       ("error cancelling order: " +:+ Error err)),
     mkInstance written.1 posted.1,
     [EvGetOrder id (Ok o); EvPost refund posted.2;
      EvSetOrderStatus (ID o) OrderStatusCancelled (Some err)]) /\
  Requests (chargeService (run (Handler req) i).1.2)
  = Requests (chargeService i) ++ [refund] /\
  (failed_write_keeps_orders S ->
   exists o',
     GetOrder (stor (run (Handler req) i).1.2) id = Ok o' /\
     o' = o /\ Status o' = OrderStatusCharged) /\
  failed_write_keeps_orders MemoryStorage.
Proof.
  intros Hid Hget Hst req refund posted written Hok Hfail. subst req.
  pose proof (run_cancel_charged i id o Hid Hget Hst) as Hrun.
  cbv zeta in Hrun. fold refund in Hrun. fold posted in Hrun.
  fold written in Hrun. rewrite Hok, Hfail in Hrun. rewrite Hrun.
  split; [done|]. split; [done|]. split.
  - intros Hlaw. exists o. simpl. split; [|done].
    rewrite <- Hget. apply (Hlaw (stor i) written.1 (ID o)
                              OrderStatusCancelled err).
    subst written. destruct (SetOrderStatus _ _ _) as [s' e'].
    simpl in Hfail. by subst e'.
  - apply MemoryStorage_failed_write.
Qed.

(** C10.  [CancelOrder] on a [Charged] order, refund and write both
    succeeding: the order is cancelled and the response struct carries
    the total as [RefundedCents] only when the total is greater than
    zero, so that the JSON object has a [refundedCents] field exactly
    then.  For a total of zero the refund is posted with amount 0 and
    the object has the two fields [message] and [orderId] only. *)
Theorem cancelOrder_zero_refund_omitted (i : instance S) (id : string)
    (o : Order) :
  id <> "" -> GetOrder (stor i) id = Ok o ->
  Status o = OrderStatusCharged ->
  let req := POST_orders_id_cancel id in
  let refund := {| ServiceCardToken := "";
                   AmountCents := neg64 (TotalCents o) |} in
  let posted := Post (chargeService i) refund in
  let written := SetOrderStatus (stor i) (ID o) OrderStatusCancelled in
  innerChargeOrder_result posted.2 = None ->
  written.2 = None ->
  exists res,
    run (Handler req) i
    = (mkResponse StatusOK (cancelOrderResBody res),
       mkInstance written.1 posted.1,
       [EvGetOrder id (Ok o); EvPost refund posted.2;
        EvSetOrderStatus (ID o) OrderStatusCancelled None]) /\
    has_field "refundedCents" (Marshal_cancelOrderRes res)
    = (0 <? TotalCents o) /\
    (TotalCents o = 0 ->
     AmountCents refund = 0 /\
     Marshal_cancelOrderRes res
     = [("message", JString "order cancelled successfully");
        ("orderId", JString (ID o))]).
Proof.
  intros Hid Hget Hst req refund posted written Hok Hw. subst req.
  pose proof (run_cancel_charged i id o Hid Hget Hst) as Hrun.
  cbv zeta in Hrun. fold refund in Hrun. fold posted in Hrun.
  fold written in Hrun. rewrite Hok, Hw in Hrun.
  eexists. split; [exact Hrun|]. split.
  - unfold Marshal_cancelOrderRes. cbn [RefundedCents Message OrderID].
    destruct (Z.ltb_spec 0 (TotalCents o)) as [Hpos|Hle].
    + destruct (Z.eqb_spec (TotalCents o) 0); [lia|]. done.
    + done.
  - intros Hz. simpl. rewrite Hz. done.
Qed.

(** C6.  [CreateOrder]: the checks come first and in this order, and a
    request that fails one is answered without any call to the store
    (the instance is left as it was): no ["@"] in the customer email
    gives [InvalidEmail]; otherwise no line item gives
    [InvalidLineItems]; otherwise a negative total gives [InvalidTotal].
    A request with a total of zero or more is turned into an order with
    an empty id and status [Pending] and handed to [InsertOrder]; the
    answer is 201 with the order under the id returned,
    [AlreadyExists] (409 order_already_exists) when the store reports
    [ErrOrderExists], and 500 internal_error for any other store
    error.  The total tested is the sum of price times quantity over
    the line items, brought into the [int64] range (the sum itself
    whenever it fits). *)
Theorem postOrders_validation (i : instance S) (args : postOrderArgs) :
  let req := POST_orders (Ok args) in
  let order := {| ID := ""; CustomerEmail := ArgCustomerEmail args;
                  LineItems := ArgLineItems args;
                  Status := OrderStatusPending |} in
  let inserted := InsertOrder (stor i) order in
  (TotalCents order = wrap64 (exact_total (ArgLineItems args)) /\
   (in_int64 (exact_total (ArgLineItems args)) ->
    TotalCents order = exact_total (ArgLineItems args))) /\
  (~ In "@"%char (list_ascii_of_string (ArgCustomerEmail args)) ->
   run (Handler req) i
   = (mkResponse 400 (errorResponse "invalid_email"
        "invalid customerEmail"), i, [])) /\
  (In "@"%char (list_ascii_of_string (ArgCustomerEmail args)) ->
   (ArgLineItems args = [] ->
    run (Handler req) i
    = (mkResponse 400 (errorResponse "invalid_line_items"
         "an order must contain at least one line item"), i, [])) /\
   (ArgLineItems args <> [] -> TotalCents order < 0 ->
    run (Handler req) i
    = (mkResponse 400 (errorResponse "invalid_total"
         "an order's total cannot be less than 0"), i, [])) /\
   (ArgLineItems args <> [] -> 0 <= TotalCents order ->
    run (Handler req) i
    = (match inserted.2 with
       | Ok id => mkResponse 201 (postOrderRes (with_ID order id))
       | Err ErrOrderExists =>
           mkResponse 409 (errorResponse "order_already_exists"
             "order already exists")
       | Err err =>
           mkResponse 500 (errorResponse "internal_error"
             ("error inserting order: " +:+ Error err))
       end,
       mkInstance inserted.1 (chargeService i),
       [EvInsertOrder order inserted.2]))).
Proof.
  intros req order inserted. subst req. simpl Handler. unfold postOrders.
  assert (ArgLineItems args <> [] ->
          (Z.of_nat (length (ArgLineItems args)) <? 1) = false) as Hlen.
  { intros Hne. apply Z.ltb_ge.
    destruct (ArgLineItems args); [done|]. simpl length. lia. }
  split.
  { split; [apply (TotalCents_wrap order)|apply (TotalCents_exact order)]. }
  split.
  - intros Hno. rewrite <- Contains_char in Hno.
    apply not_true_is_false in Hno. by rewrite Hno.
  - intros Hat. rewrite <- Contains_char in Hat. rewrite Hat. simpl negb.
    cbv iota. repeat split.
    + intros ->. done.
    + intros Hne Hneg. rewrite Hlen by done.
      apply Z.ltb_lt in Hneg. fold order. by rewrite Hneg.
    + intros Hne Hpos. rewrite Hlen by done.
      apply Z.ltb_ge in Hpos. fold order. rewrite Hpos.
      cbn -[InsertOrder]. fold inserted.
      destruct inserted as [s [id|[| |msg]]]; done.
Qed.

End HandlerClaims.

(** ** The lifecycle on the in-memory store *)

Section Lifecycle.
Implicit Types (i : instance MemoryStorage) (m : Memory.MemoryInstance).

Lemma memory_SetOrderStatus (s : MemoryStorage) id status :
  memory (SetOrderStatus s id status).1
  = (Memory.SetOrderStatus (memory s) id status).1.
Proof.
  simpl. by destruct (Memory.SetOrderStatus (memory s) id status).
Qed.

Lemma memory_InsertOrder (s : MemoryStorage) order :
  memory (InsertOrder s order).1
  = (Memory.InsertOrder (memory s) (rand_source s (rand_reads s)) order).1.
Proof.
  simpl. by destruct (Memory.InsertOrder (memory s) _ order).
Qed.

Lemma memory_GetOrder (s : MemoryStorage) id o :
  GetOrder s id = Ok o -> Memory.orders (memory s) !! id = Some o.
Proof.
  simpl. unfold Memory.GetOrder.
  destruct (Memory.orders (memory s) !! id); congruence.
Qed.

(** A request that gets no order from the middleware changes nothing. *)
Lemma run_orderFetchMiddleware_stop {S} `{StorageInstance S}
    (i : instance S) id next :
  id = "" \/ (exists e, GetOrder (stor i) id = Err e) ->
  (run (orderFetchMiddleware id next) i).1.2 = i.
Proof.
  unfold orderFetchMiddleware. intros [->|[e He]].
  - done.
  - destruct (decide (id = "")); [done|]. simpl. rewrite He.
    by destruct (is_ErrOrderNotFound e).
Qed.

Lemma serve1_store_step i req :
  store_step (memory (stor i)) (memory (stor (serve1 req i))).
Proof.
  unfold serve1.
  destruct req as [|q|body|id|id body|id]; simpl Handler.
  - constructor.
  - unfold getOrders. destruct (status_of_query q); [|constructor].
    cbn -[GetOrders].
    destruct (GetOrders (stor i) o) as [[l|]|e]; constructor.
  - unfold postOrders. destruct body as [args|e]; [|constructor].
    destruct (negb _); [constructor|].
    destruct (_ <? 1); [constructor|].
    destruct (_ <? 0); [constructor|].
    cbn -[InsertOrder].
    pose proof (memory_InsertOrder (stor i)
                  {| ID := ""; CustomerEmail := ArgCustomerEmail args;
                     LineItems := ArgLineItems args;
                     Status := OrderStatusPending |}) as Hm.
    destruct (InsertOrder (stor i) _) as [s [id|e]]; simpl in Hm |- *.
    + rewrite Hm. by constructor.
    + destruct (is_ErrOrderExists e); simpl; rewrite Hm; by constructor.
  - destruct (decide (id = "")) as [->|Hid]; [constructor|]. cbv iota.
    destruct (GetOrder (stor i) id) as [o|e] eqn:Hget.
    + rewrite (run_orderFetchMiddleware _ _ _ _ Hid Hget). constructor.
    + rewrite run_orderFetchMiddleware_stop by eauto. constructor.
  - destruct (decide (id = "")) as [->|Hid]; [constructor|].
    destruct (GetOrder (stor i) id) as [o|e] eqn:Hget.
    2:{ rewrite run_orderFetchMiddleware_stop by eauto. constructor. }
    rewrite (run_orderFetchMiddleware _ _ _ _ Hid Hget). cbn [fst snd].
    destruct body as [args|e]; [|constructor].
    rewrite run_chargeOrder.
    destruct (Z.eqb_spec (Status o) OrderStatusPending) as [Hst|Hst];
      [|constructor].
    cbv beta iota zeta. simpl negb. cbv iota.
    destruct (innerChargeOrder_result _); [constructor|].
    cbn [fst snd stor]. rewrite memory_SetOrderStatus.
    apply (step_charge _ id); [by apply memory_GetOrder|done].
  - destruct (decide (id = "")) as [->|Hid]; [constructor|].
    destruct (GetOrder (stor i) id) as [o|e] eqn:Hget.
    2:{ rewrite run_orderFetchMiddleware_stop by eauto. constructor. }
    rewrite (run_orderFetchMiddleware _ _ _ _ Hid Hget). cbn [fst snd].
    rewrite run_cancelOrder.
    destruct (Z.eqb_spec (Status o) OrderStatusPending) as [Hp|Hp];
      destruct (Z.eqb_spec (Status o) OrderStatusCharged) as [Hc|Hc];
      cbv beta iota zeta; simpl negb; simpl andb; cbv iota;
      try constructor;
      try (destruct (innerChargeOrder_result _); [constructor|]);
      cbn [fst snd stor]; rewrite memory_SetOrderStatus;
      apply (step_cancel _ id); auto using memory_GetOrder.
Qed.

Lemma keyed_NewMemory : keyed Memory.NewMemory.
Proof. apply map_Forall_empty. Qed.

Lemma new_instance_keyed rand reads client :
  keyed (memory (stor (new_instance rand reads client))).
Proof. apply keyed_NewMemory. Qed.

Lemma SetOrderStatus_orders m id status :
  Memory.orders (Memory.SetOrderStatus m id status).1
  = match Memory.orders m !! id with
    | Some o => <[id := with_Status o status]> (Memory.orders m)
    | None => Memory.orders m
    end.
Proof.
  unfold Memory.SetOrderStatus. by destruct (Memory.orders m !! id).
Qed.

Lemma InsertOrder_orders m rnd order :
  Memory.orders (Memory.InsertOrder m rnd order).1 = Memory.orders m \/
  exists id, Memory.orders m !! id = None /\
    Memory.orders (Memory.InsertOrder m rnd order).1
    = <[id := with_ID order id]> (Memory.orders m).
Proof.
  unfold Memory.InsertOrder.
  destruct (decide (ID order = "")) as [He|Hne]; [destruct rnd|]; simpl;
    try (by left);
    match goal with
    | |- context [Memory.orders m !! ?k] =>
        destruct (Memory.orders m !! k) eqn:L
    end; simpl; try (by left); right; eexists; split; try exact L; try done.
  by destruct order.
Qed.

Lemma store_step_keyed m m' : keyed m -> store_step m m' -> keyed m'.
Proof.
  intros Hk Hs id o. unfold keyed, map_Forall in Hk.
  destruct Hs as [|rnd order Hst|k ord L Hst|k ord L Hst].
  - apply Hk.
  - destruct (InsertOrder_orders m rnd order) as [->|(k & Hn & ->)];
      [apply Hk|].
    destruct (decide (k = id)) as [->|Hne].
    + rewrite lookup_insert_eq. by intros [= <-].
    + rewrite lookup_insert_ne by done. apply Hk.
  - rewrite SetOrderStatus_orders.
    destruct (Memory.orders m !! ID ord) as [x|] eqn:Lx; [|apply Hk].
    destruct (decide (ID ord = id)) as [Heq|Hne].
    + rewrite Heq, lookup_insert_eq. intros [= <-]. simpl.
      rewrite <- Heq. by apply Hk in Lx.
    + rewrite lookup_insert_ne by done. apply Hk.
  - rewrite SetOrderStatus_orders.
    destruct (Memory.orders m !! ID ord) as [x|] eqn:Lx; [|apply Hk].
    destruct (decide (ID ord = id)) as [Heq|Hne].
    + rewrite Heq, lookup_insert_eq. intros [= <-]. simpl.
      rewrite <- Heq. by apply Hk in Lx.
    + rewrite lookup_insert_ne by done. apply Hk.
Qed.

(** On a store that files orders under their ids, a step changes the
    status of a stored order along an edge of the state machine or not
    at all, and changes nothing else of it; an order that appears is
    [Pending]. *)
Lemma store_step_edges m m' id o' :
  keyed m -> store_step m m' ->
  Memory.orders m' !! id = Some o' ->
  match Memory.orders m !! id with
  | Some o =>
      (Status o' = Status o \/ legal_edge (Status o) (Status o') = true) /\
      ID o' = ID o /\ CustomerEmail o' = CustomerEmail o /\
      LineItems o' = LineItems o
  | None => Status o' = OrderStatusPending
  end.
Proof.
  intros Hk Hs L'.
  destruct Hs as [|rnd order Hst|k ord L Hst|k ord L Hst].
  - rewrite L'. auto.
  - destruct (InsertOrder_orders m rnd order) as [E|(k & Hn & E)];
      rewrite E in L'.
    + rewrite L'. auto.
    + destruct (decide (k = id)) as [->|Hne].
      * rewrite lookup_insert_eq in L'. injection L' as <-. by rewrite Hn.
      * rewrite lookup_insert_ne in L' by done. rewrite L'. auto.
  - rewrite SetOrderStatus_orders in L'. pose proof (Hk _ _ L) as Hid.
    rewrite Hid, L in L'.
    destruct (decide (k = id)) as [->|Hne].
    + rewrite lookup_insert_eq in L'. injection L' as <-. rewrite L. simpl.
      rewrite Hst. auto.
    + rewrite lookup_insert_ne in L' by done. rewrite L'. auto.
  - rewrite SetOrderStatus_orders in L'. pose proof (Hk _ _ L) as Hid.
    rewrite Hid, L in L'.
    destruct (decide (k = id)) as [->|Hne].
    + rewrite lookup_insert_eq in L'. injection L' as <-. rewrite L. simpl.
      destruct Hst as [-> | ->]; auto.
    + rewrite lookup_insert_ne in L' by done. rewrite L'. auto.
Qed.

(** No step removes an order. *)
Lemma store_step_persists m m' id o :
  store_step m m' -> Memory.orders m !! id = Some o ->
  is_Some (Memory.orders m' !! id).
Proof.
  intros Hs L.
  destruct Hs as [|rnd order Hst|k ord Lk Hst|k ord Lk Hst].
  - eauto.
  - eexists. by apply InsertOrder_keeps.
  - rewrite SetOrderStatus_orders.
    destruct (Memory.orders m !! ID ord); [|eauto].
    destruct (decide (ID ord = id)) as [->|Hne].
    + rewrite lookup_insert_eq. eauto.
    + rewrite lookup_insert_ne by done. eauto.
  - rewrite SetOrderStatus_orders.
    destruct (Memory.orders m !! ID ord); [|eauto].
    destruct (decide (ID ord = id)) as [->|Hne].
    + rewrite lookup_insert_eq. eauto.
    + rewrite lookup_insert_ne by done. eauto.
Qed.

Lemma serve_keyed reqs : forall i,
  keyed (memory (stor i)) -> keyed (memory (stor (serve reqs i))).
Proof.
  induction reqs as [|req reqs IH]; intros i Hk; [done|].
  simpl. apply IH. eapply store_step_keyed; [exact Hk|].
  apply serve1_store_step.
Qed.

(** C4.  Requests served one after the other on the in-memory store,
    starting from a new store or from any store that files every order
    under its own id: whatever the requests, the random source and the
    charge service, each request leaves every stored order in place
    with its id, email and line items, and either keeps its status or
    moves it along [Pending -> Charged], [Pending -> Cancelled] or
    [Charged -> Cancelled]; in particular a [Fulfilled] or [Cancelled]
    order keeps its status.  An order that a request adds is
    [Pending]. *)
Theorem legal_transitions_only (i0 : instance MemoryStorage)
    (reqs : list Request) (req : Request) (id : string) (o' : Order) :
  keyed (memory (stor i0)) ->
  let before := serve reqs i0 in
  let after := serve1 req before in
  Memory.orders (memory (stor after)) !! id = Some o' ->
  match Memory.orders (memory (stor before)) !! id with
  | Some o =>
      (Status o' = Status o \/ legal_edge (Status o) (Status o') = true) /\
      (Status o = OrderStatusFulfilled \/ Status o = OrderStatusCancelled ->
       Status o' = Status o) /\
      ID o' = ID o /\ CustomerEmail o' = CustomerEmail o /\
      LineItems o' = LineItems o
  | None => Status o' = OrderStatusPending
  end /\
  (forall id1 o1, Memory.orders (memory (stor before)) !! id1 = Some o1 ->
                  is_Some (Memory.orders (memory (stor after)) !! id1)).
Proof.
  intros Hk0 before after L'.
  assert (keyed (memory (stor before))) as Hk by by apply serve_keyed.
  pose proof (serve1_store_step before req) as Hs. fold after in Hs.
  split.
  - pose proof (store_step_edges _ _ _ _ Hk Hs L') as He.
    destruct (Memory.orders (memory (stor before)) !! id) as [o|]; [|done].
    destruct He as (Hedge & Hid & Hem & Hli). repeat split; try done.
    intros Hterm. destruct Hedge as [|Hedge]; [done|].
    unfold legal_edge in Hedge.
    destruct Hterm as [E|E]; rewrite E in Hedge;
      change (OrderStatusFulfilled =? OrderStatusPending) with false in Hedge;
      change (OrderStatusFulfilled =? OrderStatusCharged) with false in Hedge;
      change (OrderStatusCancelled =? OrderStatusPending) with false in Hedge;
      change (OrderStatusCancelled =? OrderStatusCharged) with false in Hedge;
      discriminate.
  - intros id1 o1 L1. by eapply store_step_persists.
Qed.

End Lifecycle.

(** ** Concurrent requests *)

Section Concurrency.

(** Scheduling a single request until it answers is serving it on its
    own: the interleaving semantics extends [run]. *)
Lemma run_schedule_alone {S} `{StorageInstance S} {R} (p : Prog R) :
  forall i : instance S,
    run_schedule (replicate (length (run p i).2) 0%nat) [p] i
    = ([Return (run p i).1.1], (run p i).1.2).
Proof.
  induction p as [r|id k IH|st k IH|id st k IH|order k IH|args k IH];
    intros i; cbn -[GetOrder GetOrders SetOrderStatus InsertOrder Post].
  - done.
  - specialize (IH (GetOrder (stor i) id) i).
    destruct (run (k (GetOrder (stor i) id)) i) as [[a i'] tr]. exact IH.
  - specialize (IH (GetOrders (stor i) st) i).
    destruct (run (k (GetOrders (stor i) st)) i) as [[a i'] tr]. exact IH.
  - destruct (SetOrderStatus (stor i) id st) as [s r] eqn:E.
    specialize (IH r (mkInstance s (chargeService i))).
    destruct (run (k r) _) as [[a i'] tr].
    cbn -[SetOrderStatus]. rewrite E. exact IH.
  - destruct (InsertOrder (stor i) order) as [s r] eqn:E.
    specialize (IH r (mkInstance s (chargeService i))).
    destruct (run (k r) _) as [[a i'] tr].
    cbn -[InsertOrder]. rewrite E. exact IH.
  - destruct (Post (chargeService i) args) as [c r] eqn:E.
    specialize (IH r (mkInstance (stor i) c)).
    destruct (run (k r) _) as [[a i'] tr].
    cbn -[Post]. rewrite E. exact IH.
Qed.

Lemma serve_cons {S} `{StorageInstance S} req reqs (i : instance S) :
  serve (req :: reqs) i = serve reqs (serve1 req i).
Proof. done. Qed.

(** Charge requests for one [Pending] order served one after the
    other, the charge service accepting: the first is answered 200 with
    the total, every later one [NotEligible], and the order ends up
    [Charged]. *)
Lemma sequential_charges (i : instance MemoryStorage) (id : string)
    (o : Order) (args : chargeOrderArgs) (n : nat) :
  id <> "" -> keyed (memory (stor i)) ->
  Memory.orders (memory (stor i)) !! id = Some o ->
  Status o = OrderStatusPending ->
  Respond (chargeService i) = accepting ->
  let reqs := replicate (Datatypes.S n) (POST_orders_id_charge id (Ok args)) in
  responses reqs i
  = mkResponse StatusOK (chargeOrderRes (TotalCents o))
    :: replicate n NotEligible_charge /\
  Memory.orders (memory (stor (serve reqs i))) !! id
  = Some (with_Status o OrderStatusCharged).
Proof.
  intros Hid Hk L Hst Hacc reqs. subst reqs.
  assert (GetOrder (stor i) id = Ok o) as Hget.
  { simpl. unfold Memory.GetOrder. by rewrite L. }
  pose proof (Hk _ _ L) as HID. simpl in HID.
  (* the first request *)
  set (payment := {| ServiceCardToken := CardToken args;
                     AmountCents := TotalCents o |}).
  set (charged := mkMemoryStorage
                    (Memory.mkMemory
                       (<[id := with_Status o OrderStatusCharged]>
                          (Memory.orders (memory (stor i)))))
                    (rand_source (stor i)) (rand_reads (stor i))).
  assert (Post (chargeService i) payment
          = (mkClient accepting (Requests (chargeService i) ++ [payment]),
             PostResponse StatusCreated "")) as HP.
  { unfold Post. by rewrite Hacc. }
  assert (SetOrderStatus (stor i) (ID o) OrderStatusCharged
          = (charged, None)) as HW.
  { rewrite HID. simpl. unfold Memory.SetOrderStatus. by rewrite L. }
  assert (run (Handler (POST_orders_id_charge id (Ok args))) i
          = (mkResponse StatusOK (chargeOrderRes (TotalCents o)),
             mkInstance charged
               (mkClient accepting (Requests (chargeService i) ++ [payment])),
             [EvGetOrder id (Ok o);
              EvPost payment (PostResponse StatusCreated "");
              EvSetOrderStatus (ID o) OrderStatusCharged None])) as Hfirst.
  { simpl Handler. rewrite (run_orderFetchMiddleware _ _ _ _ Hid Hget).
    rewrite run_chargeOrder. rewrite Hst.
    change (negb (OrderStatusPending =? OrderStatusPending)) with false.
    cbv beta iota zeta. fold payment. rewrite HP, HW. done. }
  (* every later request finds the order charged *)
  assert (forall k (j : instance MemoryStorage),
            Memory.orders (memory (stor j)) !! id
            = Some (with_Status o OrderStatusCharged) ->
            responses (replicate k (POST_orders_id_charge id (Ok args))) j
            = replicate k NotEligible_charge /\
            serve (replicate k (POST_orders_id_charge id (Ok args))) j = j)
    as Hlater.
  { induction k as [|k IH]; intros j Lj; [done|].
    assert (GetOrder (stor j) id = Ok (with_Status o OrderStatusCharged))
      as Hgetj.
    { simpl. unfold Memory.GetOrder. by rewrite Lj. }
    assert (run (Handler (POST_orders_id_charge id (Ok args))) j
            = (NotEligible_charge, j,
               [EvGetOrder id (Ok (with_Status o OrderStatusCharged))]))
      as Hj.
    { simpl Handler. rewrite (run_orderFetchMiddleware _ _ _ _ Hid Hgetj).
      rewrite run_chargeOrder. done. }
    change (replicate (Datatypes.S k) ?r) with (r :: replicate k r).
    rewrite serve_cons. cbn [responses]. unfold serve1. rewrite !Hj.
    cbn [fst snd]. destruct (IH j Lj) as [Hr Hs].
    split; [by rewrite Hr|exact Hs]. }
  change (replicate (Datatypes.S n) ?r) with (r :: replicate n r).
  rewrite serve_cons. cbn [responses]. unfold serve1. rewrite !Hfirst.
  cbn [fst snd].
  match goal with
  | |- context [responses _ ?j] =>
      destruct (Hlater n j) as [Hr Hs]; [apply lookup_insert_eq|]
  end.
  rewrite Hr, Hs. split; [done|]. apply lookup_insert_eq.
Qed.

(** C1 fails on the handlers: two [chargeOrder] requests for the same
    [Pending] order, scheduled so that both fetch the order before
    either writes, are both answered 200 with the total charged, and the
    charge service has been asked to charge the order twice.  Each
    handler tests the status of the order its middleware fetched, and
    [SetOrderStatus] overwrites whatever is stored. *)
Theorem concurrent_charges_both_succeed :
  Status <$> Memory.orders (memory (stor race_start)) !! race_id
  = Some OrderStatusPending /\
  (let done := run_schedule race_schedule
                 [Handler race_request; Handler race_request] race_start in
   answer <$> done.1
   = [Some (mkResponse StatusOK (chargeOrderRes 2000));
      Some (mkResponse StatusOK (chargeOrderRes 2000))] /\
   Requests (chargeService done.2)
   = [{| ServiceCardToken := "tok"; AmountCents := 2000 |};
      {| ServiceCardToken := "tok"; AmountCents := 2000 |}] /\
   Status <$> Memory.orders (memory (stor done.2)) !! race_id
   = Some OrderStatusCharged).
Proof. vm_compute. auto. Qed.

End Concurrency.

Section RaceAnyOrder.

Lemma run_schedule_step {S} `{StorageInstance S} {R} t sched
    (pool : list (Prog R)) (i i' : instance S) p p' e :
  pool !! t = Some p -> step p i = Some (p', i', e) ->
  run_schedule (t :: sched) pool i = run_schedule sched (<[t := p']> pool) i'.
Proof. intros Hp Hs. simpl. by rewrite Hp, Hs. Qed.

(** The race does not depend on the order chosen: for every [Pending]
    order of a store that files orders under their ids, and a charge
    service that accepts, the same schedule lets both requests
    succeed and charges the order twice. *)
Lemma race_any_pending_order (i : instance MemoryStorage) (id : string)
    (o : Order) (args : chargeOrderArgs) :
  id <> "" -> keyed (memory (stor i)) ->
  Memory.orders (memory (stor i)) !! id = Some o ->
  Status o = OrderStatusPending ->
  Respond (chargeService i) = accepting ->
  let req := POST_orders_id_charge id (Ok args) in
  let payment := {| ServiceCardToken := CardToken args;
                    AmountCents := TotalCents o |} in
  let done := run_schedule race_schedule [Handler req; Handler req] i in
  answer <$> done.1
  = [Some (mkResponse StatusOK (chargeOrderRes (TotalCents o)));
     Some (mkResponse StatusOK (chargeOrderRes (TotalCents o)))] /\
  Requests (chargeService done.2)
  = Requests (chargeService i) ++ [payment; payment] /\
  Memory.orders (memory (stor done.2)) !! id
  = Some (with_Status o OrderStatusCharged).
Proof.
  intros Hid Hk L Hst Hacc req payment.
  pose proof (Hk _ _ L) as HID. simpl in HID.
  destruct i as [[[m] rand reads] [respond requests]].
  simpl in L, Hacc, Hk. subst respond.
  set (ok := mkResponse StatusOK (chargeOrderRes (TotalCents o))).
  set (m' := <[id := with_Status o OrderStatusCharged]> m).
  assert (run_schedule race_schedule [Handler req; Handler req]
            (mkInstance (mkMemoryStorage (Memory.mkMemory m) rand reads)
               (mkClient accepting requests))
          = ([Return ok; Return ok],
             mkInstance (mkMemoryStorage (Memory.mkMemory m') rand reads)
               (mkClient accepting ((requests ++ [payment]) ++ [payment]))))
    as E.
  { unfold race_schedule, req. simpl Handler. unfold orderFetchMiddleware.
    rewrite decide_False by done.
    (* both requests fetch the order *)
    erewrite run_schedule_step; [|reflexivity|].
    2:{ cbn -[chargeOrder]. unfold Memory.GetOrder. cbn [Memory.orders].
        rewrite L. reflexivity. }
    erewrite run_schedule_step; [|reflexivity|].
    2:{ cbn -[chargeOrder]. unfold Memory.GetOrder. cbn [Memory.orders].
        rewrite L. reflexivity. }
    unfold chargeOrder. rewrite Hst.
    change (negb (OrderStatusPending =? OrderStatusPending)) with false.
    cbv iota. fold payment.
    (* both post their charge *)
    erewrite run_schedule_step; [|reflexivity|reflexivity].
    erewrite run_schedule_step; [|reflexivity|reflexivity].
    (* both write the status *)
    erewrite run_schedule_step; [|reflexivity|].
    2:{ cbn -[TotalCents]. rewrite HID. unfold Memory.SetOrderStatus.
        cbn [Memory.orders]. rewrite L. reflexivity. }
    erewrite run_schedule_step; [|reflexivity|].
    2:{ cbn -[TotalCents]. rewrite HID. unfold Memory.SetOrderStatus.
        cbn [Memory.orders]. rewrite lookup_insert_eq. reflexivity. }
    cbn -[TotalCents]. rewrite insert_insert_eq. reflexivity. }
  cbv zeta. rewrite E. cbn [fst snd stor chargeService memory Requests
                             Memory.orders].
  split; [done|]. split; [by rewrite <- app_assoc|]. apply lookup_insert_eq.
Qed.

End RaceAnyOrder.

(** ** The properties at work on concrete requests *)

Lemma SetOrderStatus_frame_witness :
  (Memory.SetOrderStatus (memory (stor with_fulfilled)) "f1"
     OrderStatusPending).2 = None /\
  Memory.SetOrderStatus (memory (stor with_fulfilled)) "zz" OrderStatusPending
  = (memory (stor with_fulfilled), Some ErrOrderNotFound).
Proof.
  split.
  - pose proof (SetOrderStatus_frame (memory (stor with_fulfilled)) "f1"
                  OrderStatusPending) as Hw.
    change (Memory.orders (memory (stor with_fulfilled)) !! "f1")
      with (Some fulfilled_order) in Hw.
    exact (proj1 Hw).
  - exact (SetOrderStatus_frame (memory (stor with_fulfilled)) "zz"
             OrderStatusPending).
Defined.

Lemma InsertOrder_unique_ids_witness :
  let order := mkOrder "" "a@b" [mkLineItem "Widget" 1000 2] OrderStatusPending in
  NoDup (inserted_ids
           (InsertOrders Memory.NewMemory
              [(RandFill [x01], order); (RandFill [x01], order);
               (RandFill [x02], order)]).2) /\
  Memory.InsertOrder (memory (stor race_start)) (RandFill [x01]) order
  = (memory (stor race_start), Err ErrOrderExists) /\
  Memory.InsertOrder (memory (stor race_start)) (RandFill [x01]) race_order
  = (memory (stor race_start), Err ErrOrderExists).
Proof.
  intros order. split; [|split].
  - exact (proj1 (proj1 (InsertOrder_unique_ids Memory.NewMemory
                           [(RandFill [x01], order); (RandFill [x01], order);
                            (RandFill [x02], order)]
                           (RandFill []) [] order))).
  - destruct (InsertOrder_unique_ids (memory (stor race_start)) []
                (RandFill [x01]) [x01] order) as (_ & _ & Hgen & _).
    apply Hgen; [reflexivity|]. vm_compute. eauto.
  - destruct (InsertOrder_unique_ids (memory (stor race_start)) []
                (RandFill [x01]) [x01] race_order) as (_ & Hsup & _).
    apply Hsup; [discriminate|]. vm_compute. eauto.
Defined.

Lemma GetOrders_filter_correct_witness :
  Memory.GetOrders_range OrderStatusPending
    (map_to_list (Memory.orders (memory (stor with_fulfilled)))) = nil_slice /\
  (run (Handler (GET_orders "pending")) with_fulfilled).1.1
  = mkResponse 200 (getOrdersRes (Some [])) /\
  exists l,
    (run (Handler (GET_orders "fulfilled")) with_fulfilled).1.1
    = mkResponse 200 (getOrdersRes (Some l)) /\
    l ≡ₚ [fulfilled_order].
Proof.
  assert (Memory.iteration_of (memory (stor with_fulfilled))
            (map_to_list (Memory.orders (memory (stor with_fulfilled)))))
    as Hit by (unfold Memory.iteration_of; reflexivity).
  destruct (GetOrders_filter_correct with_fulfilled _ OrderStatusPending
              "pending" Hit) as (_ & _ & Hnil & Hq).
  destruct (GetOrders_filter_correct with_fulfilled _ OrderStatusFulfilled
              "fulfilled" Hit) as (_ & _ & _ & Hq').
  split; [apply Hnil; vm_compute; reflexivity|]. split.
  - destruct (Hq eq_refl) as (l & Hrun & _ & Hempty).
    rewrite Hrun. rewrite (Hempty ltac:(vm_compute; reflexivity)). reflexivity.
  - destruct (Hq' eq_refl) as (l & Hrun & Hperm & _).
    exists l. split; [by rewrite Hrun|exact Hperm].
Defined.

Lemma chargeOrder_behaviour_witness :
  race_id <> "" /\
  GetOrder (stor race_start) race_id = Ok race_order /\
  (run (Handler race_request) race_start).1.1
  = mkResponse 200 (chargeOrderRes 2000) /\
  (run (Handler race_request) (serve [race_request] race_start)).1.1
  = mkResponse 409
      (errorResponse "order_not_eligible" "order ineligible for charging") /\
  (run (Handler race_request)
     (mkInstance (stor race_start) (mkClient refusing []))).1.1
  = mkResponse 500
      (errorResponse "charge_service_error" "error charging body: 500 down").
Proof.
  assert (race_id <> "") as Hid by discriminate.
  assert (GetOrder (stor race_start) race_id = Ok race_order) as Hget
    by (vm_compute; reflexivity).
  split; [exact Hid|]. split; [exact Hget|].
  change race_request
    with (POST_orders_id_charge race_id (Ok (mkChargeOrderArgs "tok"))).
  split; [|split].
  - destruct (chargeOrder_behaviour race_start race_id
                (mkChargeOrderArgs "tok") race_order Hid Hget)
      as (_ & _ & Hok).
    rewrite Hok; [|reflexivity|vm_compute; reflexivity].
    vm_compute. reflexivity.
  - assert (GetOrder
              (stor (serve [POST_orders_id_charge race_id
                              (Ok (mkChargeOrderArgs "tok"))] race_start))
              race_id
            = Ok (with_Status race_order OrderStatusCharged)) as Hget'
      by (vm_compute; reflexivity).
    destruct (chargeOrder_behaviour _ race_id (mkChargeOrderArgs "tok")
                _ Hid Hget') as (Hno & _).
    rewrite Hno; [reflexivity|discriminate].
  - destruct (chargeOrder_behaviour
                (mkInstance (stor race_start) (mkClient refusing []))
                race_id (mkChargeOrderArgs "tok") race_order Hid Hget)
      as (_ & Hfail & _).
    rewrite (Hfail eq_refl (ErrOther "error charging body: 500 down"));
      [reflexivity|vm_compute; reflexivity].
Defined.

Lemma cancelOrder_refund_gating_witness :
  let charged := with_Status race_order OrderStatusCharged in
  GetOrder (stor charged_then_down) race_id = Ok charged /\
  (run (Handler (POST_orders_id_cancel race_id)) charged_then_down).1.1
  = mkResponse 500 (errorResponse "charge_service_error"
      "error processing refund: error charging body: 500 down") /\
  GetOrder (stor (run (Handler (POST_orders_id_cancel race_id))
                    charged_then_down).1.2) race_id
  = Ok charged.
Proof.
  intros charged.
  assert (race_id <> "") as Hid by discriminate.
  assert (GetOrder (stor charged_then_down) race_id = Ok charged) as Hget
    by (vm_compute; reflexivity).
  split; [exact Hget|].
  destruct (cancelOrder_refund_gating charged_then_down race_id charged
              Hid Hget eq_refl) as (_ & _ & Hfail).
  destruct (Hfail (ErrOther "error charging body: 500 down"))
    as (Hrun & Hstill & _); [vm_compute; reflexivity|].
  split; [|exact Hstill]. rewrite Hrun. reflexivity.
Defined.

Lemma cancelOrder_refund_then_failed_write_witness :
  let i := mkInstance read_only (mkClient accepting []) in
  (run (Handler (POST_orders_id_cancel race_id)) i).1.1
  = mkResponse 500 (errorResponse "internal_error"
      "error cancelling order: read-only store") /\
  Requests (chargeService
              (run (Handler (POST_orders_id_cancel race_id)) i).1.2)
  = [{| ServiceCardToken := ""; AmountCents := -2000 |}] /\
  GetOrder (stor (run (Handler (POST_orders_id_cancel race_id)) i).1.2) race_id
  = Ok (with_Status race_order OrderStatusCharged).
Proof.
  intros i.
  assert (race_id <> "") as Hid by discriminate.
  assert (GetOrder (stor i) race_id
          = Ok (with_Status race_order OrderStatusCharged)) as Hget
    by reflexivity.
  destruct (cancelOrder_refund_then_failed_write i race_id
              (with_Status race_order OrderStatusCharged)
              (ErrOther "read-only store") Hid Hget eq_refl
              ltac:(vm_compute; reflexivity) ltac:(reflexivity))
    as (Hrun & Hreq & Hstill & _).
  split; [by rewrite Hrun|]. split; [exact Hreq|].
  destruct (Hstill MockStorage_failed_write) as (o' & Hget' & -> & _).
  exact Hget'.
Defined.

Lemma cancelOrder_zero_refund_omitted_witness :
  exists o res,
    GetOrder (stor free_charged) race_id = Ok o /\
    Status o = OrderStatusCharged /\ TotalCents o = 0 /\
    (run (Handler (POST_orders_id_cancel race_id)) free_charged).1.1
    = mkResponse StatusOK (cancelOrderResBody res) /\
    has_field "refundedCents" (Marshal_cancelOrderRes res) = false.
Proof.
  set (o := mkOrder race_id "a@b"
              [mkLineItem "Widget" 1000 1; mkLineItem "Discount" (-1000) 1]
              OrderStatusCharged).
  assert (race_id <> "") as Hid by discriminate.
  assert (GetOrder (stor free_charged) race_id = Ok o) as Hget
    by (vm_compute; reflexivity).
  destruct (cancelOrder_zero_refund_omitted free_charged race_id o Hid Hget
              eq_refl ltac:(vm_compute; reflexivity)
              ltac:(vm_compute; reflexivity))
    as (res & Hrun & Hfield & _).
  exists o, res. split; [exact Hget|]. split; [reflexivity|].
  split; [reflexivity|]. split; [by rewrite Hrun|]. exact Hfield.
Defined.

Lemma postOrders_validation_witness :
  (run (Handler (POST_orders (Ok widget)))
     (new_instance race_rand 0 (mkClient accepting []))).1.1
  = mkResponse 201 (postOrderRes race_order) /\
  (run (Handler (POST_orders (Ok (mkPostOrderArgs "nobody" []))))
     (new_instance race_rand 0 (mkClient accepting []))).1.1
  = mkResponse 400 (errorResponse "invalid_email" "invalid customerEmail").
Proof.
  split.
  - destruct (postOrders_validation
                (new_instance race_rand 0 (mkClient accepting [])) widget)
      as (_ & _ & Hat).
    destruct Hat as (_ & _ & Hok); [simpl; tauto|].
    rewrite Hok; [|discriminate|vm_compute; discriminate].
    vm_compute. reflexivity.
  - destruct (postOrders_validation
                (new_instance race_rand 0 (mkClient accepting []))
                (mkPostOrderArgs "nobody" [])) as (_ & Hno & _).
    rewrite Hno; [reflexivity|].
    simpl. intros Hin. repeat destruct Hin as [Hin|Hin]; try discriminate.
    exact Hin.
Defined.

Lemma legal_transitions_only_witness :
  (forall o', Memory.orders
                (memory (stor (serve1 (POST_orders_id_cancel "f1")
                                 (serve [POST_orders (Ok widget); race_request]
                                    with_fulfilled)))) !! "f1" = Some o' ->
              Status o' = OrderStatusFulfilled) /\
  (forall o', Memory.orders
                (memory (stor (serve1 (POST_orders_id_cancel race_id)
                                 (serve [POST_orders (Ok widget); race_request]
                                    with_fulfilled)))) !! race_id = Some o' ->
              legal_edge OrderStatusCharged (Status o') = true).
Proof.
  assert (keyed (memory (stor with_fulfilled))) as Hk.
  { refine (bool_decide_unpack _ _). vm_compute. exact I. }
  split; intros o' L'.
  - destruct (legal_transitions_only with_fulfilled
                [POST_orders (Ok widget); race_request]
                (POST_orders_id_cancel "f1") "f1" o' Hk L') as [Hm _].
    change (Memory.orders
              (memory (stor (serve [POST_orders (Ok widget); race_request]
                               with_fulfilled))) !! "f1")
      with (Some fulfilled_order) in Hm.
    destruct Hm as (_ & Hterm & _). apply Hterm. by left.
  - destruct (legal_transitions_only with_fulfilled
                [POST_orders (Ok widget); race_request]
                (POST_orders_id_cancel race_id) race_id o' Hk L') as [Hm _].
    change (Memory.orders
              (memory (stor (serve [POST_orders (Ok widget); race_request]
                               with_fulfilled))) !! race_id)
      with (Some (with_Status race_order OrderStatusCharged)) in Hm.
    destruct Hm as ([Hsame|Hedge] & _); [|exact Hedge].
    vm_compute in L'. injection L' as <-. discriminate Hsame.
Defined.

(** * Further properties of the store *)

Section MemoryMore.
Import Memory.

Lemma with_ID_same (o : Order) : with_ID o (ID o) = o.
Proof. by destruct o. Qed.

Lemma InsertOrder_Ok_stored i rnd order i' id :
  InsertOrder i rnd order = (i', Ok id) ->
  orders i !! id = None /\
  orders i' = <[id := with_ID order id]> (orders i) /\
  (if decide (ID order = "")
   then exists src, rnd = RandFill src /\ id = EncodeToString (fill16 src)
   else id = ID order).
Proof.
  unfold InsertOrder. intros E.
  destruct (decide (ID order = "")) as [He|Hne]; [destruct rnd|]; simpl in E;
    try discriminate;
    match type of E with
    | context [orders i !! ?k] => destruct (orders i !! k) eqn:L
    end; simplify_eq; (split; [done|]); split; eauto.
  by rewrite with_ID_same.
Qed.

(** X1.  Insert/lookup round trip: after an [InsertOrder] that succeeds
    with the id [id], [GetOrder id] returns the order passed in with its
    id field set to [id] (a supplied id is kept as it is); before the
    call [GetOrder id] was [ErrOrderNotFound]; and [GetOrder] answers as
    before on every other id. *)
Theorem InsertOrder_GetOrder_roundtrip (i i' : MemoryInstance)
    (rnd : RandRead) (order : Order) (id : string) :
  InsertOrder i rnd order = (i', Ok id) ->
  GetOrder i' id = Ok (with_ID order id) /\
  GetOrder i id = Err ErrOrderNotFound /\
  (ID order <> "" -> id = ID order /\ with_ID order id = order) /\
  (forall id', id' <> id -> GetOrder i' id' = GetOrder i id').
Proof.
  intros E. apply InsertOrder_Ok_stored in E as (Hnone & Hi' & Hid).
  unfold GetOrder. rewrite Hi', Hnone, lookup_insert_eq.
  split; [done|]. split; [done|]. split.
  - intros Hne. rewrite decide_False in Hid by done. subst.
    split; [done|]. apply with_ID_same.
  - intros id' Hne. by rewrite lookup_insert_ne.
Qed.

(** X2.  [SetOrderStatus] neither adds nor removes an order: the set of
    stored ids stays the same.  A stored order read back with [GetOrder]
    is the order as it was with the new status; an id that was not
    stored is still not found. *)
Theorem SetOrderStatus_readback (i : MemoryInstance) (id : string)
    (status : OrderStatus) :
  dom (orders (SetOrderStatus i id status).1) = dom (orders i) /\
  GetOrder (SetOrderStatus i id status).1 id
  = match GetOrder i id with
    | Ok o => Ok (with_Status o status)
    | Err e => Err e
    end.
Proof.
  unfold SetOrderStatus, GetOrder.
  destruct (orders i !! id) as [o|] eqn:L; simpl.
  - rewrite lookup_insert_eq. split; [|done].
    rewrite dom_insert_L. apply elem_of_dom_2 in L.
    apply subseteq_union_1_L. by apply singleton_subseteq_l.
  - by rewrite L.
Qed.

(** X3.  Status writes compose as assignments do: of two writes to the
    same id the last one wins (the first might as well not have been
    made), and writes to different ids can be made in either order. *)
Theorem SetOrderStatus_last_write_wins (i : MemoryInstance)
    (id id' : string) (s1 s2 : OrderStatus) :
  SetOrderStatus (SetOrderStatus i id s1).1 id s2 = SetOrderStatus i id s2 /\
  (id <> id' ->
   (SetOrderStatus (SetOrderStatus i id s1).1 id' s2).1
   = (SetOrderStatus (SetOrderStatus i id' s2).1 id s1).1).
Proof.
  split.
  - unfold SetOrderStatus.
    destruct (orders i !! id) as [o|] eqn:L; simpl.
    + rewrite lookup_insert_eq, insert_insert_eq. done.
    + by rewrite L.
  - intros Hne. unfold SetOrderStatus.
    destruct (orders i !! id) as [o|] eqn:L;
      destruct (orders i !! id') as [o'|] eqn:L'; simpl;
      rewrite ?lookup_insert_ne by done; rewrite ?L, ?L'; simpl; try done.
    f_equal. by apply insert_insert_ne.
Qed.

(** X4.  The ways [InsertOrder] fails: with [ErrOrderExists], when the id
    it is about to use is taken, or with the error of [rand.Read], which
    it calls only for an order that comes with an empty id.  Whenever it
    fails the store is left as it was; and a call that fails for an order
    that comes with an id fails the same way whatever the random source
    delivers. *)
Theorem InsertOrder_failures (i i' : MemoryInstance) (rnd rnd' : RandRead)
    (order : Order) (e : error) :
  InsertOrder i rnd order = (i', Err e) ->
  i' = i /\
  ((ID order = "" /\ rnd = RandFail e) \/
   (e = ErrOrderExists /\
    exists id, is_Some (orders i !! id) /\
               (ID order <> "" -> id = ID order) /\
               (ID order = "" ->
                exists src, rnd = RandFill src /\
                            id = EncodeToString (fill16 src)))) /\
  (ID order <> "" -> InsertOrder i rnd' order = (i, Err e)).
Proof.
  unfold InsertOrder.
  destruct (decide (ID order = "")) as [He|Hne]; [destruct rnd|]; simpl.
  - intros [= <- <-]. split; [done|]. split; [by left|done].
  - destruct (orders i !! _) eqn:L; intros [= <- <-].
    split; [done|]. split; [|done]. right. split; [done|].
    eexists. split; [by eexists|]. split; [done|]. eauto.
  - destruct (orders i !! ID order) eqn:L; intros [= <- <-].
    split; [done|]. split.
    + right. split; [done|]. exists (ID order).
      split; [by eexists|]. split; done.
    + intros _. done.
Qed.

Lemma apply_op_keyed m op : keyed m -> keyed (apply_op m op).
Proof.
  intros Hk. destruct op as [rnd order|id status]; simpl.
  - destruct (InsertOrder m rnd order) as [m' [id|e]] eqn:E; simpl.
    + apply InsertOrder_Ok_stored in E as (_ & Hm' & _).
      unfold keyed. rewrite Hm'. by apply map_Forall_insert_2.
    + apply InsertOrder_Err in E. by subst.
  - unfold SetOrderStatus. destruct (orders m !! id) as [o|] eqn:L; [|done].
    simpl. unfold keyed. simpl. apply map_Forall_insert_2; [|done].
    simpl. by apply Hk in L.
Qed.

(** X5.  The store files every order under its own id: after any
    sequence of [InsertOrder] and [SetOrderStatus] calls on a new store,
    an order returned by [GetOrder id] has [id] in its id field. *)
Theorem GetOrder_returns_requested_id (ops : list StoreOp) (id : string)
    (o : Order) :
  GetOrder (apply_ops ops NewMemory) id = Ok o -> ID o = id.
Proof.
  assert (forall m, keyed m -> keyed (apply_ops ops m)) as Hk.
  { induction ops as [|op ops IH]; intros m Hm; [done|].
    simpl. apply IH. by apply apply_op_keyed. }
  specialize (Hk NewMemory (map_Forall_empty _)).
  unfold GetOrder.
  destruct (orders (apply_ops ops NewMemory) !! id) as [o'|] eqn:L;
    [|discriminate].
  intros [= <-]. by apply Hk in L.
Qed.

End MemoryMore.

Section GeneratedIds.
Import Memory.

Lemma unhex_byte (v : byte) :
  unhex_digit (hexdigit (N.shiftr (Byte.to_N v) 4))
    = Some (N.shiftr (Byte.to_N v) 4) /\
  unhex_digit (hexdigit (N.land (Byte.to_N v) 15))
    = Some (N.land (Byte.to_N v) 15) /\
  Byte.of_N (N.shiftr (Byte.to_N v) 4 * 16 + N.land (Byte.to_N v) 15)
    = Some v.
Proof. destruct v; vm_compute; auto. Qed.

(** Decoding the hexadecimal form gives the bytes back. *)
Lemma unhex_EncodeToString (src : list byte) :
  unhex (EncodeToString src) = Some src.
Proof.
  induction src as [|v src IH]; [done|].
  cbn [EncodeToString unhex]. rewrite IH.
  destruct (unhex_byte v) as (-> & -> & ->). done.
Qed.

Lemma EncodeToString_hexdigits (src : list byte) :
  forallb is_hexdigit (list_ascii_of_string (EncodeToString src)) = true.
Proof.
  induction src as [|v src IH]; [done|].
  cbn [EncodeToString list_ascii_of_string forallb]. rewrite IH.
  unfold is_hexdigit. destruct (unhex_byte v) as (-> & -> & _). done.
Qed.

(** X6.  The id [InsertOrder] generates for an order that comes without
    one is the hexadecimal form of the 16 random bytes: 32 characters,
    all of them lower-case hexadecimal digits, from which the bytes can
    be read back; so two generated ids are equal only if the random
    bytes were. *)
Theorem InsertOrder_generated_id (i i' : MemoryInstance) (src : list byte)
    (order : Order) (id : string) :
  ID order = "" ->
  InsertOrder i (RandFill src) order = (i', Ok id) ->
  String.length id = 32%nat /\
  forallb is_hexdigit (list_ascii_of_string id) = true /\
  unhex id = Some (fill16 src) /\
  (forall src', EncodeToString (fill16 src') = id ->
                fill16 src' = fill16 src).
Proof.
  intros He E. apply InsertOrder_Ok_stored in E as (_ & _ & Hid).
  rewrite decide_True in Hid by done. destruct Hid as (s & [= <-] & ->).
  split; [|split; [|split]].
  - by rewrite EncodeToString_length, fill16_length.
  - apply EncodeToString_hexdigits.
  - apply unhex_EncodeToString.
  - intros src' E. apply (f_equal unhex) in E.
    rewrite !unhex_EncodeToString in E. congruence.
Qed.

Lemma elem_of_GetOrders_range (m : MemoryInstance) status visited o :
  iteration_of m visited ->
  o ∈ elems (GetOrders_range status visited) <->
  passes status o = true /\ exists id, orders m !! id = Some o.
Proof.
  unfold iteration_of. intros Hit.
  rewrite GetOrders_range_elems, list_elem_of_filter, Hit.
  rewrite list_elem_of_fmap. split.
  - intros [Hp ([id o'] & -> & Hin)]. split; [done|]. exists id.
    by apply elem_of_map_to_list.
  - intros [Hp (id & L)]. split; [done|]. exists (id, o). split; [done|].
    by apply elem_of_map_to_list.
Qed.

(** X7.  [GetOrders] reflects the last status write: once
    [SetOrderStatus id status] has succeeded on a store that files
    orders under their ids, the listing for [status] contains the order
    with its new status, and the listing for any other status contains
    no order with that id. *)
Theorem GetOrders_after_SetOrderStatus (i : MemoryInstance) (id : string)
    (status : OrderStatus) (o : Order) (visited : list (string * Order)) :
  keyed i -> orders i !! id = Some o ->
  iteration_of (SetOrderStatus i id status).1 visited ->
  with_Status o status ∈ elems (GetOrders_range status visited) /\
  (forall s' o', s' <> -1 -> s' <> status ->
                 o' ∈ elems (GetOrders_range s' visited) -> ID o' <> id).
Proof.
  intros Hk L Hit.
  pose proof (apply_op_keyed i (OpSetOrderStatus id status) Hk) as Hk'.
  simpl in Hk'.
  pose proof (elem_of_GetOrders_range _ status visited
                (with_Status o status) Hit) as Hin.
  assert (orders (SetOrderStatus i id status).1
          = <[id := with_Status o status]> (orders i)) as Hm.
  { unfold SetOrderStatus. by rewrite L. }
  split.
  - apply Hin. split.
    + unfold passes. simpl. rewrite Z.eqb_refl. apply orb_true_r.
    + exists id. rewrite Hm. apply lookup_insert_eq.
  - intros s' o' Hall Hne Ho' Hid.
    apply (elem_of_GetOrders_range _ s' visited o' Hit) in Ho'
      as [Hp (k & Lk)].
    pose proof (Hk' _ _ Lk) as Hkey. simpl in Hkey.
    rewrite Hid in Hkey. subst k.
    rewrite Hm, lookup_insert_eq in Lk. injection Lk as <-.
    apply passes_concrete in Hp; [|done]. simpl in Hp. congruence.
Qed.

End GeneratedIds.

(** * Further properties of the handlers *)

Section HandlersMore.
Context {S : Type} `{StorageInstance S}.

Lemma run_orderFetchMiddleware_Err (i : instance S) id e next :
  id <> "" -> GetOrder (stor i) id = Err e ->
  run (orderFetchMiddleware id next) i
  = (if is_ErrOrderNotFound e
     then handleError StatusNotFound ErrCodeOrderNotFound "not found"
     else handleError StatusInternalServerError ErrCodeInternalError
            ("error getting order: " +:+ Error e),
     i, [EvGetOrder id (Err e)]).
Proof.
  intros Hid He. unfold orderFetchMiddleware.
  rewrite decide_False by done. simpl. rewrite He.
  by destruct (is_ErrOrderNotFound e).
Qed.

Lemma run_orderFetchMiddleware_empty (i : instance S) next :
  run (orderFetchMiddleware "" next) i
  = (handleError StatusBadRequest ErrCodeInvalidStatus "missing order ID",
     i, []).
Proof. done. Qed.

Lemma Handler_order_routes id body req :
  id <> "" -> req ∈ order_routes id body ->
  exists next, Handler req = orderFetchMiddleware id next.
Proof.
  unfold order_routes. intros Hid Hin.
  repeat (apply elem_of_cons in Hin as [->|Hin]);
    [|eauto|eauto|by apply elem_of_nil in Hin].
  exists getOrder. simpl. by rewrite decide_False.
Qed.

(** X8.  The three routes on one order ([GET /orders/:id], charge and
    cancel) stop before their handler when the order cannot be fetched,
    whatever the body.  With an empty id, [GET /orders/] is answered by
    the router with a redirect to [/orders] (301), and the two [POST]
    routes by the middleware with 400 invalid_status; in both cases no
    call is made.  With an id the store does not know the answer is 404
    order_not_found, and with any other store error 500 internal_error
    with the error's message: the fetch is the only call, nothing is
    posted or written. *)
Theorem order_routes_stop_at_fetch (i : instance S) (id : string)
    (body : result chargeOrderArgs) (req : Request) :
  req ∈ order_routes id body ->
  (id = "" ->
   run (Handler req) i
   = (match req with
      | GET_orders_id _ => mkResponse 301 (redirect "/orders")
      | _ => mkResponse 400 (errorResponse "invalid_status" "missing order ID")
      end, i, [])) /\
  (id <> "" -> GetOrder (stor i) id = Err ErrOrderNotFound ->
   run (Handler req) i
   = (mkResponse 404 (errorResponse "order_not_found" "not found"), i,
      [EvGetOrder id (Err ErrOrderNotFound)])) /\
  (id <> "" -> forall e, GetOrder (stor i) id = Err e ->
   e <> ErrOrderNotFound ->
   run (Handler req) i
   = (mkResponse 500 (errorResponse "internal_error"
        ("error getting order: " +:+ Error e)), i, [EvGetOrder id (Err e)])).
Proof.
  intros Hin. split; [|split].
  - intros ->. unfold order_routes in Hin.
    repeat (apply elem_of_cons in Hin as [->|Hin]); try done.
    by apply elem_of_nil in Hin.
  - intros Hid He.
    destruct (Handler_order_routes _ _ _ Hid Hin) as [next ->].
    by rewrite (run_orderFetchMiddleware_Err _ _ _ _ Hid He).
  - intros Hid e He Hne.
    destruct (Handler_order_routes _ _ _ Hid Hin) as [next ->].
    rewrite (run_orderFetchMiddleware_Err _ _ _ _ Hid He).
    by destruct e.
Qed.

Lemma status_of_query_tokens q :
  match status_of_query q with
  | Some _ => q ∈ status_tokens
  | None => q ∉ status_tokens
  end.
Proof.
  unfold status_of_query, status_tokens.
  repeat (case_decide; [subst; repeat constructor|]).
  intros Hin. repeat (apply elem_of_cons in Hin as [->|Hin]); try done.
  by apply elem_of_nil in Hin.
Qed.

(** X10.  [GET /orders] understands exactly five values of the [status]
    parameter: [pending], [charged], [fulfilled], [cancelled] and the
    empty string, which stand for the statuses 0, 1, 2, 3 and for the
    filter -1.  Any other value (a capitalised one, say) is answered 400
    invalid_status without any call to the store; an understood value
    leads to one [GetOrders] call with the corresponding status, whose
    error, if any, is answered 500 internal_error. *)
Theorem getOrders_status_parameter (i : instance S) (q : string) :
  (q ∉ status_tokens ->
   run (Handler (GET_orders q)) i
   = (mkResponse 400 (errorResponse "invalid_status"
        "unknown value for status: %v"), i, [])) /\
  (q ∈ status_tokens ->
   exists status,
     (q, status) ∈ [("pending", OrderStatusPending);
                    ("charged", OrderStatusCharged);
                    ("fulfilled", OrderStatusFulfilled);
                    ("cancelled", OrderStatusCancelled); ("", -1)] /\
     (run (Handler (GET_orders q)) i).1.2 = i /\
     (run (Handler (GET_orders q)) i).2
     = [EvGetOrders status (GetOrders (stor i) status)] /\
     (forall e, GetOrders (stor i) status = Err e ->
        (run (Handler (GET_orders q)) i).1.1
        = mkResponse 500 (errorResponse "internal_error"
            ("error getting orders: " +:+ Error e)))).
Proof.
  pose proof (status_of_query_tokens q) as Hq. simpl Handler.
  unfold getOrders. split.
  - intros Hno. destruct (status_of_query q); [done|]. done.
  - intros Hin. destruct (status_of_query q) as [status|] eqn:E; [|done].
    exists status. split.
    + unfold status_of_query in E. unfold status_tokens in Hin.
      repeat (apply elem_of_cons in Hin as [->|Hin]);
        try (by apply elem_of_nil in Hin);
        vm_compute in E; injection E as <-; repeat constructor.
    + cbn -[GetOrders].
      destruct (GetOrders (stor i) status) as [[l|]|e]; cbn;
        repeat split; try done; intros e' [= <-]; done.
Qed.

(** X11.  [innerChargeOrder] posts its arguments to the charge service
    exactly once and touches nothing else; it reports success if and
    only if the service answered with status 201.  A transport error
    and every other status, 200 included, are errors. *)
Theorem innerChargeOrder_succeeds_iff_201 (i : instance S)
    (args : chargeServiceChargeArgs) :
  let answer := Respond (chargeService i) (Requests (chargeService i)) args in
  ((run (innerChargeOrder args) i).1.1 = None <->
   exists body, answer = PostResponse StatusCreated body) /\
  stor (run (innerChargeOrder args) i).1.2 = stor i /\
  Requests (chargeService (run (innerChargeOrder args) i).1.2)
  = Requests (chargeService i) ++ [args] /\
  (run (innerChargeOrder args) i).2 = [EvPost args answer].
Proof.
  intros answer. unfold innerChargeOrder. cbn. fold answer.
  split; [|done]. unfold innerChargeOrder_result.
  destruct answer as [err|code body].
  - split; [discriminate|]. intros [b Hb]. discriminate.
  - destruct (Z.eqb_spec code StatusCreated) as [->|Hne]; simpl.
    + split; [eauto|done].
    + split; [discriminate|]. intros [b [= Hc _]]. done.
Qed.

(** X12.  [CancelOrder] on a [Pending] order calls no external service:
    after the fetch the only call is [SetOrderStatus] with [Cancelled],
    and the charge service is left as it was.  A failure of that write
    is answered 500 internal_error; on success the response carries no
    refund, whatever the order's total. *)
Theorem cancelOrder_pending_without_refund (i : instance S) (id : string)
    (o : Order) :
  id <> "" -> GetOrder (stor i) id = Ok o ->
  Status o = OrderStatusPending ->
  let written := SetOrderStatus (stor i) (ID o) OrderStatusCancelled in
  let res := {| Message := "order cancelled successfully";
                OrderID := ID o; RefundedCents := 0 |} in
  run (Handler (POST_orders_id_cancel id)) i
  = (match written.2 with
     | Some err =>
         mkResponse 500 (errorResponse "internal_error"
           ("error cancelling order: " +:+ Error err))
     | None => mkResponse 200 (cancelOrderResBody res)
     end,
     mkInstance written.1 (chargeService i),
     [EvGetOrder id (Ok o);
      EvSetOrderStatus (ID o) OrderStatusCancelled written.2]) /\
  has_field "refundedCents" (Marshal_cancelOrderRes res) = false.
Proof.
  intros Hid Hget Hst written res. split; [|done].
  simpl Handler. rewrite (run_orderFetchMiddleware _ _ _ _ Hid Hget).
  rewrite run_cancelOrder, Hst.
  change (OrderStatusPending =? OrderStatusPending) with true.
  change (OrderStatusPending =? OrderStatusCharged) with false.
  cbv beta iota zeta. simpl negb. simpl andb. cbv iota. fold written.
  by destruct (written.2).
Qed.

(** X13.  [CancelOrder] refuses every order that is neither [Pending]
    nor [Charged] (a fulfilled one, one already cancelled, one with an
    unknown status): 409 order_not_eligible, nothing refunded, nothing
    written. *)
Theorem cancelOrder_refuses_other_statuses (i : instance S) (id : string)
    (o : Order) :
  id <> "" -> GetOrder (stor i) id = Ok o ->
  Status o <> OrderStatusPending -> Status o <> OrderStatusCharged ->
  run (Handler (POST_orders_id_cancel id)) i
  = (mkResponse 409 (errorResponse "order_not_eligible"
       "order cannot be cancelled - only pending or charged orders can be cancelled"),
     i, [EvGetOrder id (Ok o)]).
Proof.
  intros Hid Hget Hp Hc.
  simpl Handler. rewrite (run_orderFetchMiddleware _ _ _ _ Hid Hget).
  rewrite run_cancelOrder.
  apply Z.eqb_neq in Hp, Hc. by rewrite Hp, Hc.
Qed.

(** X14.  A body that does not decode is answered 400 invalid_json with
    the decoder's message, and nothing is charged or written:
    [postOrders] makes no call at all; [chargeOrder] is reached only
    after the fetch and then stops before looking at the order, so that
    an undecodable body wins over [NotEligible] (while a missing order
    wins over it, being detected by the middleware first). *)
Theorem undecodable_body_is_invalid_json (i : instance S) (e : error)
    (id : string) (o : Order) :
  run (Handler (POST_orders (Err e))) i
  = (mkResponse 400 (errorResponse "invalid_json"
       ("error decoding body: " +:+ Error e)), i, []) /\
  (id <> "" -> GetOrder (stor i) id = Ok o ->
   run (Handler (POST_orders_id_charge id (Err e))) i
   = (mkResponse 400 (errorResponse "invalid_json"
        ("error decoding body: " +:+ Error e)), i, [EvGetOrder id (Ok o)])).
Proof.
  split; [done|]. intros Hid Hget.
  simpl Handler. by rewrite (run_orderFetchMiddleware _ _ _ _ Hid Hget).
Qed.

(** X15.  The [GET] routes only read: whatever the storage answers,
    serving [GET /healthz], [GET /orders] or [GET /orders/:id] leaves
    the instance as it was, writes nothing to the store and posts
    nothing to the charge service. *)
Theorem read_routes_change_nothing (i : instance S) (req : Request) :
  is_read_route req = true ->
  (run (Handler req) i).1.2 = i /\
  forallb quiet (run (Handler req) i).2 = true.
Proof.
  destruct req as [|q|body|id|id body|id]; try discriminate; intros _;
    simpl Handler.
  - done.
  - unfold getOrders. destruct (status_of_query q); [|done].
    cbn -[GetOrders]. by destruct (GetOrders (stor i) o) as [[l|]|e].
  - unfold orderFetchMiddleware. destruct (decide (id = "")); [done|].
    cbn -[GetOrder]. destruct (GetOrder (stor i) id) as [o|e]; [done|].
    by destruct (is_ErrOrderNotFound e).
Qed.

(** X16.  No request is served with more than three calls, more than one
    post to the charge service or more than one write to the store:
    nothing is retried, and one request charges or refunds at most
    once. *)
Theorem request_call_budget (i : instance S) (req : Request) :
  (length (run (Handler req) i).2 <= 3)%nat /\
  (length (List.filter is_post (run (Handler req) i).2) <= 1)%nat /\
  (length (List.filter is_write (run (Handler req) i).2) <= 1)%nat.
Proof.
  destruct req as [|q|body|id|id body|id]; simpl Handler.
  - cbn. lia.
  - unfold getOrders. destruct (status_of_query q); [|cbn; lia].
    cbn -[GetOrders]. destruct (GetOrders (stor i) o) as [[l|]|e]; cbn; lia.
  - unfold postOrders. destruct body as [args|e]; [|cbn; lia].
    destruct (negb _); [cbn; lia|].
    destruct (_ <? 1); [cbn; lia|].
    destruct (_ <? 0); [cbn; lia|].
    cbn -[InsertOrder].
    destruct (InsertOrder (stor i) _) as [s [id|e]]; [cbn; lia|].
    destruct (is_ErrOrderExists e); cbn; lia.
  - destruct (decide (id = "")) as [->|Hid]; [cbn; lia|]. cbv iota.
    destruct (GetOrder (stor i) id) as [o|e] eqn:Hget.
    + rewrite (run_orderFetchMiddleware _ _ _ _ Hid Hget).
      unfold getOrder. cbn. lia.
    + rewrite (run_orderFetchMiddleware_Err _ _ _ _ Hid Hget). cbn. lia.
  - destruct (decide (id = "")) as [->|Hid];
      [rewrite run_orderFetchMiddleware_empty; cbn; lia|].
    destruct (GetOrder (stor i) id) as [o|e] eqn:Hget.
    2:{ rewrite (run_orderFetchMiddleware_Err _ _ _ _ Hid Hget). cbn. lia. }
    rewrite (run_orderFetchMiddleware _ _ _ _ Hid Hget).
    destruct body as [args|e]; [|cbn; lia].
    rewrite run_chargeOrder.
    destruct (negb _); [cbn; lia|]. cbv zeta.
    destruct (innerChargeOrder_result _); cbn; lia.
  - destruct (decide (id = "")) as [->|Hid];
      [rewrite run_orderFetchMiddleware_empty; cbn; lia|].
    destruct (GetOrder (stor i) id) as [o|e] eqn:Hget.
    2:{ rewrite (run_orderFetchMiddleware_Err _ _ _ _ Hid Hget). cbn. lia. }
    rewrite (run_orderFetchMiddleware _ _ _ _ Hid Hget).
    rewrite run_cancelOrder.
    destruct (negb _ && negb _); [cbn; lia|]. cbv zeta.
    destruct (Status o =? OrderStatusCharged);
      [destruct (innerChargeOrder_result _)|]; cbn; lia.
Qed.

End HandlersMore.

(** * Further properties of the handlers on the in-memory store *)

Section OnMemory.
Implicit Types (i : instance MemoryStorage) (m : Memory.MemoryInstance).

Lemma run_postOrders {S} `{StorageInstance S} (i : instance S) args :
  run (postOrders (Ok args)) i
  = if negb (Contains (ArgCustomerEmail args) "@") then
      (handleError StatusBadRequest ErrCodeInvalidEmail
         "invalid customerEmail", i, [])
    else if Z.of_nat (length (ArgLineItems args)) <? 1 then
      (handleError StatusBadRequest ErrCodeInvalidLineItems
         "an order must contain at least one line item", i, [])
    else if TotalCents (order_of_args args) <? 0 then
      (handleError StatusBadRequest ErrCodeInvalidTotal
         "an order's total cannot be less than 0", i, [])
    else
      let inserted := InsertOrder (stor i) (order_of_args args) in
      (match inserted.2 with
       | Ok id =>
           mkResponse StatusCreated
             (postOrderRes (with_ID (order_of_args args) id))
       | Err err =>
           if is_ErrOrderExists err then
             handleError StatusConflict ErrCodeOrderExists
               "order already exists"
           else
             handleError StatusInternalServerError ErrCodeInternalError
               ("error inserting order: " +:+ Error err)
       end,
       mkInstance inserted.1 (chargeService i),
       [EvInsertOrder (order_of_args args) inserted.2]).
Proof.
  unfold postOrders, order_of_args.
  destruct (negb _); [done|]. destruct (_ <? 1); [done|].
  destruct (_ <? 0); [done|]. cbn -[InsertOrder].
  destruct (InsertOrder (stor i) _) as [s [id|e]]; [reflexivity|].
  destruct e; reflexivity.
Qed.

Lemma accepted_checks args :
  accepted (order_of_args args) <->
  negb (Contains (ArgCustomerEmail args) "@") = false /\
  (Z.of_nat (length (ArgLineItems args)) <? 1) = false /\
  (TotalCents (order_of_args args) <? 0) = false.
Proof.
  unfold accepted. simpl CustomerEmail. simpl LineItems.
  rewrite <- Contains_char, negb_false_iff, Z.ltb_ge, Z.ltb_ge.
  assert (ArgLineItems args <> [] <->
          1 <= Z.of_nat (length (ArgLineItems args))) as ->; [|done].
  destruct (ArgLineItems args); simpl length; split; try done; lia.
Qed.

(** X20.  [POST /orders] on the in-memory store, for a body that passes
    the checks.  The order always goes in without an id, so the store
    reads the random source once, whatever happens next.  If that read
    fails the answer is 500 internal_error with the error's message and
    nothing is stored; if the generated id is taken the answer is 409
    order_already_exists and nothing is stored; otherwise the answer is
    201 with the order under the generated id, which is what the store
    now holds under that id. *)
Theorem postOrders_on_memory (i : instance MemoryStorage)
    (args : postOrderArgs) :
  accepted (order_of_args args) ->
  let after := serve1 (POST_orders (Ok args)) i in
  let response := (run (Handler (POST_orders (Ok args))) i).1.1 in
  rand_reads (stor after) = Datatypes.S (rand_reads (stor i)) /\
  chargeService after = chargeService i /\
  match rand_source (stor i) (rand_reads (stor i)) with
  | RandFail e =>
      memory (stor after) = memory (stor i) /\
      (e <> ErrOrderExists ->
       response
       = mkResponse 500 (errorResponse "internal_error"
           ("error inserting order: " +:+ Error e)))
  | RandFill src =>
      let id := EncodeToString (fill16 src) in
      match Memory.orders (memory (stor i)) !! id with
      | Some _ =>
          memory (stor after) = memory (stor i) /\
          response = mkResponse 409 (errorResponse "order_already_exists"
                       "order already exists")
      | None =>
          Memory.orders (memory (stor after))
          = <[id := with_ID (order_of_args args) id]>
              (Memory.orders (memory (stor i))) /\
          response = mkResponse 201
                       (postOrderRes (with_ID (order_of_args args) id))
      end
  end.
Proof.
  intros Hacc after response. subst after response. unfold serve1.
  change (Handler (POST_orders (Ok args))) with (postOrders (Ok args)).
  rewrite run_postOrders.
  apply accepted_checks in Hacc as (-> & -> & ->). cbv zeta.
  set (rnd := rand_source (stor i) (rand_reads (stor i))).
  set (inserted := Memory.InsertOrder (memory (stor i)) rnd
                     (order_of_args args)).
  assert (InsertOrder (stor i) (order_of_args args)
          = ({| memory := inserted.1; rand_source := rand_source (stor i);
                rand_reads := Datatypes.S (rand_reads (stor i)) |},
             inserted.2)) as ->.
  { simpl. fold rnd. fold inserted. by destruct inserted. }
  cbn [fst snd stor chargeService rand_reads memory].
  split; [done|]. split; [done|].
  subst inserted. unfold Memory.InsertOrder.
  cbn [ID order_of_args]. rewrite decide_True by done.
  destruct rnd as [e|src]; cbn [fst snd].
  - split; [done|]. intros Hne. by destruct e.
  - cbv zeta. cbn [ID with_ID].
    by destruct (Memory.orders (memory (stor i)) !! _).
Qed.

(** X9.  Create/read round trip through the API: when [POST /orders] is
    answered 201 with an order, that order has a non-empty id, the
    posted email and line items and status [Pending]; [GET /orders/:id]
    with its id is then answered 200 with exactly that order, and it is
    part of the answer of [GET /orders?status=pending]. *)
Theorem postOrders_then_getOrder (i : instance MemoryStorage)
    (args : postOrderArgs) (o : Order) :
  (run (Handler (POST_orders (Ok args))) i).1.1
  = mkResponse 201 (postOrderRes o) ->
  let after := serve1 (POST_orders (Ok args)) i in
  ID o <> "" /\
  o = mkOrder (ID o) (ArgCustomerEmail args) (ArgLineItems args)
        OrderStatusPending /\
  accepted o /\
  run (Handler (GET_orders_id (ID o))) after
  = (mkResponse 200 (getOrderRes o), after,
     [EvGetOrder (ID o) (Ok o)]) /\
  exists l,
    (run (Handler (GET_orders "pending")) after).1.1
    = mkResponse 200 (getOrdersRes (Some l)) /\ o ∈ l.
Proof.
  intros Hresp after. subst after. unfold serve1.
  change (Handler (POST_orders (Ok args))) with (postOrders (Ok args)) in *.
  rewrite run_postOrders in *.
  destruct (negb (Contains _ _)) eqn:C1; [discriminate|].
  destruct (_ <? 1) eqn:C2; [discriminate|].
  destruct (_ <? 0) eqn:C3; [discriminate|].
  assert (accepted (order_of_args args)) as Hacc
    by (by apply accepted_checks).
  cbv zeta in *. cbn [fst snd] in *.
  pose proof (memory_InsertOrder (stor i) (order_of_args args)) as Hm.
  destruct (InsertOrder (stor i) (order_of_args args)) as [s [id|e]] eqn:E;
    cbn [fst snd] in *.
  2:{ destruct (is_ErrOrderExists e); discriminate. }
  injection Hresp as <-.
  assert (Memory.InsertOrder (memory (stor i))
            (rand_source (stor i) (rand_reads (stor i)))
            (order_of_args args)
          = (memory s, Ok id)) as Em.
  { simpl in E.
    destruct (Memory.InsertOrder (memory (stor i)) _ _) as [m r].
    by injection E as <- <-. }
  apply InsertOrder_Ok_stored in Em as (Hnone & Hs & Hid).
  rewrite decide_True in Hid by done. destruct Hid as (src & _ & ->).
  set (id := EncodeToString (fill16 src)) in *.
  assert (GetOrder s id = Ok (with_ID (order_of_args args) id)) as Hget.
  { simpl. unfold Memory.GetOrder. by rewrite Hs, lookup_insert_eq. }
  split; [apply generated_id_nonempty|]. split; [done|].
  split; [exact Hacc|]. split.
  - cbn [ID with_ID].
    simpl Handler. rewrite decide_False by apply generated_id_nonempty.
    by rewrite (run_orderFetchMiddleware
                  (mkInstance s (chargeService i)) id _ getOrder
                  (generated_id_nonempty src) Hget).
  - change (Handler (GET_orders "pending")) with (getOrders "pending").
    unfold getOrders.
    change (status_of_query "pending") with (Some OrderStatusPending).
    cbn -[Memory.GetOrders_range TotalCents].
    pose proof (elem_of_GetOrders_range (memory s) OrderStatusPending
                  (map_to_list (Memory.orders (memory s)))
                  (with_ID (order_of_args args) id)
                  ltac:(unfold Memory.iteration_of; reflexivity)) as Hin.
    assert (with_ID (order_of_args args) id
            ∈ elems (Memory.GetOrders_range OrderStatusPending
                       (map_to_list (Memory.orders (memory s))))) as Hel.
    { apply Hin. split; [done|]. exists id.
      by rewrite Hs, lookup_insert_eq. }
    clear Hin.
    destruct (Memory.GetOrders_range OrderStatusPending
                (map_to_list (Memory.orders (memory s)))) as [l|] eqn:El;
      simpl in Hel.
    + exists l. by split.
    + by apply elem_of_nil in Hel.
Qed.

End OnMemory.

Section LifecycleMore.
Implicit Types (i : instance MemoryStorage) (m : Memory.MemoryInstance).

Lemma memory_SetOrderStatus_found (s : MemoryStorage) id o status :
  Memory.orders (memory s) !! id = Some o ->
  SetOrderStatus s id status
  = (mkMemoryStorage
       (Memory.mkMemory (<[id := with_Status o status]>
                           (Memory.orders (memory s))))
       (rand_source s) (rand_reads s), None).
Proof. intros L. simpl. unfold Memory.SetOrderStatus. by rewrite L. Qed.

Lemma memory_GetOrder_found (s : MemoryStorage) id o :
  Memory.orders (memory s) !! id = Some o -> GetOrder s id = Ok o.
Proof. intros L. simpl. unfold Memory.GetOrder. by rewrite L. Qed.



(** X17.  Charge, cancel, cancel again, with a charge service that
    accepts: the three answers are 200 with the total charged, 200 with
    the cancellation (carrying the total as refund when it is greater
    than zero), and 409 order_not_eligible.  The charge service has
    received the charge for the total with the given card token and then
    the refund for the negated total with an empty token, and nothing
    else; the order ends up [Cancelled]. *)
Theorem charge_cancel_cancel (i : instance MemoryStorage) (id : string)
    (o : Order) (args : chargeOrderArgs) :
  id <> "" -> keyed (memory (stor i)) ->
  Memory.orders (memory (stor i)) !! id = Some o ->
  Status o = OrderStatusPending ->
  Respond (chargeService i) = accepting ->
  let reqs := [POST_orders_id_charge id (Ok args);
               POST_orders_id_cancel id; POST_orders_id_cancel id] in
  responses reqs i
  = [mkResponse 200 (chargeOrderRes (TotalCents o));
     mkResponse 200
       (cancelOrderResBody
          {| Message := "order cancelled successfully"; OrderID := id;
             RefundedCents :=
               if 0 <? TotalCents o then TotalCents o else 0 |});
     NotEligible_cancel] /\
  Requests (chargeService (serve reqs i))
  = Requests (chargeService i)
    ++ [{| ServiceCardToken := CardToken args;
           AmountCents := TotalCents o |};
        {| ServiceCardToken := ""; AmountCents := neg64 (TotalCents o) |}] /\
  Memory.orders (memory (stor (serve reqs i))) !! id
  = Some (with_Status o OrderStatusCancelled).
Proof.
  intros Hid Hk L Hst Hacc reqs. subst reqs.
  pose proof (Hk _ _ L) as HID. simpl in HID.
  destruct i as [s [respond requests]]. simpl in Hacc, L, Hk. subst respond.
  set (T := TotalCents o).
  set (pay := {| ServiceCardToken := CardToken args; AmountCents := T |}).
  set (refund := {| ServiceCardToken := ""; AmountCents := neg64 T |}).
  set (oc := with_Status o OrderStatusCharged).
  set (ox := with_Status o OrderStatusCancelled).
  set (s1 := mkMemoryStorage
               (Memory.mkMemory (<[id := oc]> (Memory.orders (memory s))))
               (rand_source s) (rand_reads s)).
  set (s2 := mkMemoryStorage
               (Memory.mkMemory (<[id := ox]> (Memory.orders (memory s))))
               (rand_source s) (rand_reads s)).
  set (i0 := mkInstance s (mkClient accepting requests)).
  set (i1 := mkInstance s1 (mkClient accepting (requests ++ [pay]))).
  set (i2 := mkInstance s2
               (mkClient accepting ((requests ++ [pay]) ++ [refund]))).
  assert (run (Handler (POST_orders_id_charge id (Ok args))) i0
          = (mkResponse 200 (chargeOrderRes T), i1,
             [EvGetOrder id (Ok o);
              EvPost pay (PostResponse StatusCreated "");
              EvSetOrderStatus id OrderStatusCharged None])) as R1.
  { change (Handler (POST_orders_id_charge id (Ok args)))
      with (orderFetchMiddleware id (chargeOrder (Ok args))).
    rewrite (run_orderFetchMiddleware i0 id o _ Hid
               (memory_GetOrder_found s id o L)).
    rewrite run_chargeOrder, Hst.
    change (negb (OrderStatusPending =? OrderStatusPending)) with false.
    cbv beta iota zeta. fold T. fold pay.
    change (Post (chargeService i0) pay)
      with (mkClient accepting (requests ++ [pay]),
            PostResponse StatusCreated "").
    cbn [fst snd]. change (innerChargeOrder_result _) with (@None error).
    cbv iota. rewrite HID.
    cbn [stor i0]. rewrite (memory_SetOrderStatus_found s id o _ L).
    reflexivity. }
  assert (Memory.orders (memory s1) !! id = Some oc) as L1
    by apply lookup_insert_eq.
  assert (run (Handler (POST_orders_id_cancel id)) i1
          = (mkResponse 200
               (cancelOrderResBody
                  {| Message := "order cancelled successfully";
                     OrderID := id;
                     RefundedCents := if 0 <? T then T else 0 |}), i2,
             [EvGetOrder id (Ok oc);
              EvPost refund (PostResponse StatusCreated "");
              EvSetOrderStatus id OrderStatusCancelled None])) as R2.
  { change (Handler (POST_orders_id_cancel id))
      with (orderFetchMiddleware id cancelOrder).
    rewrite (run_orderFetchMiddleware i1 id oc _ Hid
               (memory_GetOrder_found s1 id oc L1)).
    rewrite run_cancelOrder.
    change (Status oc) with OrderStatusCharged.
    change (OrderStatusCharged =? OrderStatusCharged) with true.
    change (OrderStatusCharged =? OrderStatusPending) with false.
    cbv beta iota zeta. simpl negb. simpl andb. cbv iota.
    change (TotalCents oc) with T. fold refund.
    change (Post (chargeService i1) refund)
      with (mkClient accepting ((requests ++ [pay]) ++ [refund]),
            PostResponse StatusCreated "").
    cbn [fst snd]. change (innerChargeOrder_result _) with (@None error).
    cbv iota. change (ID oc) with (ID o). rewrite HID.
    cbn [stor i1]. rewrite (memory_SetOrderStatus_found s1 id oc _ L1).
    cbn [fst snd app]. unfold i2, s2. cbn [memory Memory.orders s1].
    rewrite insert_insert_eq. reflexivity. }
  assert (Memory.orders (memory s2) !! id = Some ox) as L2
    by apply lookup_insert_eq.
  assert (run (Handler (POST_orders_id_cancel id)) i2
          = (NotEligible_cancel, i2, [EvGetOrder id (Ok ox)])) as R3.
  { change (Handler (POST_orders_id_cancel id))
      with (orderFetchMiddleware id cancelOrder).
    rewrite (run_orderFetchMiddleware i2 id ox _ Hid
               (memory_GetOrder_found s2 id ox L2)).
    rewrite run_cancelOrder. reflexivity. }
  cbn [responses]. rewrite !serve_cons. unfold serve1.
  rewrite !R1. cbn [fst snd]. rewrite !R2. cbn [fst snd]. rewrite !R3.
  cbn [fst snd serve fold_left]. split; [done|]. split; [|exact L2].
  cbn [chargeService i2 Requests]. by rewrite <- app_assoc.
Qed.

End LifecycleMore.

Section StoredOrders.
Implicit Types (i : instance MemoryStorage) (m : Memory.MemoryInstance).

(** What serving one request does to the map of the in-memory store,
    with what is known of the order a [POST /orders] inserts. *)
Lemma serve1_memory_cases i req :
  let m := memory (stor i) in
  let m' := memory (stor (serve1 req i)) in
  m' = m \/
  (exists rnd args, accepted (order_of_args args) /\
                    m' = (Memory.InsertOrder m rnd (order_of_args args)).1) \/
  (exists id status,
     (status = OrderStatusCharged \/ status = OrderStatusCancelled) /\
     m' = (Memory.SetOrderStatus m id status).1).
Proof.
  intros m m'. subst m m'. unfold serve1.
  destruct req as [|q|body|id|id body|id].
  - by left.
  - left. change (Handler (GET_orders q)) with (getOrders q).
    unfold getOrders. destruct (status_of_query q); [|done].
    cbn -[GetOrders]. by destruct (GetOrders (stor i) o) as [[l|]|e].
  - destruct body as [args|e]; [|by left].
    change (Handler (POST_orders (Ok args))) with (postOrders (Ok args)).
    rewrite run_postOrders.
    destruct (negb _) eqn:C1; [by left|].
    destruct (_ <? 1) eqn:C2; [by left|].
    destruct (_ <? 0) eqn:C3; [by left|].
    right; left. eexists _, args. split; [by apply accepted_checks|].
    cbv zeta. cbn [fst snd stor]. apply memory_InsertOrder.
  - left. simpl Handler.
    destruct (decide (id = "")) as [->|Hid]; [done|]. cbv iota.
    destruct (GetOrder (stor i) id) as [o|e] eqn:Hget.
    + by rewrite (run_orderFetchMiddleware _ _ _ _ Hid Hget).
    + by rewrite (run_orderFetchMiddleware_Err _ _ _ _ Hid Hget).
  - change (Handler (POST_orders_id_charge id body))
      with (orderFetchMiddleware id (chargeOrder body)).
    destruct (decide (id = "")) as [->|Hid]; [by left|].
    destruct (GetOrder (stor i) id) as [o|e] eqn:Hget.
    2:{ left. rewrite (run_orderFetchMiddleware_Err _ _ _ _ Hid Hget).
        done. }
    rewrite (run_orderFetchMiddleware _ _ _ _ Hid Hget). cbn [fst snd].
    destruct body as [args|e]; [|by left].
    rewrite run_chargeOrder. destruct (negb _); [by left|].
    cbv zeta. destruct (innerChargeOrder_result _); [by left|].
    right; right. exists (ID o), OrderStatusCharged. split; [by left|].
    cbn [fst snd stor]. apply memory_SetOrderStatus.
  - change (Handler (POST_orders_id_cancel id))
      with (orderFetchMiddleware id cancelOrder).
    destruct (decide (id = "")) as [->|Hid]; [by left|].
    destruct (GetOrder (stor i) id) as [o|e] eqn:Hget.
    2:{ left. rewrite (run_orderFetchMiddleware_Err _ _ _ _ Hid Hget).
        done. }
    rewrite (run_orderFetchMiddleware _ _ _ _ Hid Hget). cbn [fst snd].
    rewrite run_cancelOrder. destruct (negb _ && negb _); [by left|].
    cbv zeta.
    destruct (Status o =? OrderStatusCharged);
      [destruct (innerChargeOrder_result _); [by left|]|];
      right; right; exists (ID o), OrderStatusCancelled;
      (split; [by right|]); cbn [fst snd stor]; apply memory_SetOrderStatus.
Qed.

Lemma serve1_sound i req :
  map_Forall sound_order (Memory.orders (memory (stor i))) ->
  map_Forall sound_order (Memory.orders (memory (stor (serve1 req i)))).
Proof.
  intros Hs.
  destruct (serve1_memory_cases i req)
    as [->|[(rnd & args & Hacc & ->)|(id & status & Hst & ->)]]; [done|..].
  - destruct (Memory.InsertOrder (memory (stor i)) rnd (order_of_args args))
      as [m' [id|e]] eqn:E; cbn [fst].
    + apply InsertOrder_Ok_stored in E as (_ & -> & Hid).
      rewrite decide_True in Hid by done. destruct Hid as (src & _ & ->).
      apply map_Forall_insert_2; [|done].
      split; [exact Hacc|]. split; [done|].
      split; [apply generated_id_nonempty|]. by left.
    + apply InsertOrder_Err in E. by subst.
  - rewrite SetOrderStatus_orders.
    destruct (Memory.orders (memory (stor i)) !! id) as [o|] eqn:L; [|done].
    apply map_Forall_insert_2; [|done].
    destruct (Hs _ _ L) as (Hacc & HID & Hne & _).
    split; [exact Hacc|]. split; [done|]. split; [done|].
    simpl. destruct Hst as [-> | ->]; auto.
Qed.

(** X18.  Whatever requests have been served one after the other on a
    new in-memory store, every order it holds satisfies what
    [POST /orders] checks (an ["@"] in the email, at least one line
    item, a total of zero or more), is filed under its own, non-empty
    id, and is [Pending], [Charged] or [Cancelled]: the handlers never
    store an order that was not validated and never produce the status
    [Fulfilled]. *)
Theorem stored_orders_are_sound (rand : nat -> RandRead) (reads : nat)
    (client : Client) (reqs : list Request) (id : string) (o : Order) :
  Memory.orders (memory (stor (serve reqs (new_instance rand reads client))))
    !! id = Some o ->
  accepted o /\ ID o = id /\ id <> "" /\
  (Status o = OrderStatusPending \/ Status o = OrderStatusCharged \/
   Status o = OrderStatusCancelled).
Proof.
  assert (forall i,
            map_Forall sound_order (Memory.orders (memory (stor i))) ->
            map_Forall sound_order
              (Memory.orders (memory (stor (serve reqs i))))) as Hall.
  { induction reqs as [|req reqs IH]; intros i Hi; [done|].
    rewrite serve_cons. by apply IH, serve1_sound. }
  intros L. apply (Hall _ (map_Forall_empty _) _ _ L).
Qed.

End StoredOrders.

(** * The further properties at work on concrete requests *)

Lemma InsertOrder_GetOrder_roundtrip_witness :
  Memory.GetOrder
    (Memory.InsertOrder Memory.NewMemory (RandFill [x01])
       (order_of_args widget)).1 race_id
  = Ok race_order.
Proof.
  destruct (InsertOrder_GetOrder_roundtrip Memory.NewMemory
              (Memory.InsertOrder Memory.NewMemory (RandFill [x01])
                 (order_of_args widget)).1
              (RandFill [x01]) (order_of_args widget) race_id
              ltac:(vm_compute; reflexivity)) as (Hget & _).
  exact Hget.
Defined.

Lemma SetOrderStatus_last_write_wins_witness :
  let m := memory (stor two_orders) in
  let a := (Memory.SetOrderStatus
              (Memory.SetOrderStatus m race_id OrderStatusCharged).1
              "f1" OrderStatusCancelled).1 in
  let b := (Memory.SetOrderStatus
              (Memory.SetOrderStatus m "f1" OrderStatusCancelled).1
              race_id OrderStatusCharged).1 in
  let c := (Memory.SetOrderStatus
              (Memory.SetOrderStatus m race_id OrderStatusCharged).1
              race_id OrderStatusCancelled).1 in
  Memory.GetOrder m race_id = Ok race_order /\
  Memory.GetOrder m "f1" = Ok fulfilled_order /\
  a = b /\
  Memory.GetOrder b race_id = Ok (with_Status race_order OrderStatusCharged) /\
  Memory.GetOrder b "f1"
  = Ok (with_Status fulfilled_order OrderStatusCancelled) /\
  c = (Memory.SetOrderStatus m race_id OrderStatusCancelled).1 /\
  Memory.GetOrder c race_id
  = Ok (with_Status race_order OrderStatusCancelled).
Proof.
  intros m a b c.
  destruct (SetOrderStatus_last_write_wins m race_id "f1"
              OrderStatusCharged OrderStatusCancelled) as (_ & Hcomm).
  destruct (SetOrderStatus_last_write_wins m race_id race_id
              OrderStatusCharged OrderStatusCancelled) as (Hlast & _).
  assert (a = b) as Hab by (apply Hcomm; discriminate).
  assert (c = (Memory.SetOrderStatus m race_id OrderStatusCancelled).1) as Hc
    by (subst c; by rewrite Hlast).
  split; [vm_compute; reflexivity|]. split; [vm_compute; reflexivity|].
  split; [exact Hab|].
  split; [rewrite <- Hab; vm_compute; reflexivity|].
  split; [rewrite <- Hab; vm_compute; reflexivity|].
  split; [exact Hc|]. rewrite Hc. vm_compute. reflexivity.
Defined.

Lemma InsertOrder_failures_witness :
  exists id, is_Some (Memory.orders (memory (stor race_start)) !! id).
Proof.
  destruct (InsertOrder_failures (memory (stor race_start))
              (memory (stor race_start)) (RandFill [x01]) (RandFill [x02])
              race_order ErrOrderExists ltac:(vm_compute; reflexivity))
    as (_ & [[Hempty _]|(_ & id & Hsome & _)] & _).
  - discriminate Hempty.
  - by exists id.
Defined.

Lemma GetOrder_returns_requested_id_witness :
  ID (with_Status race_order OrderStatusCharged) = race_id.
Proof.
  apply (GetOrder_returns_requested_id
           [OpInsertOrder (RandFill [x01]) (order_of_args widget);
            OpSetOrderStatus race_id OrderStatusCharged]).
  vm_compute. reflexivity.
Defined.

Lemma InsertOrder_generated_id_witness :
  String.length race_id = 32%nat /\ unhex race_id = Some (fill16 [x01]).
Proof.
  destruct (InsertOrder_generated_id Memory.NewMemory
              (Memory.InsertOrder Memory.NewMemory (RandFill [x01])
                 (order_of_args widget)).1
              [x01] (order_of_args widget) race_id eq_refl
              ltac:(vm_compute; reflexivity)) as (Hlen & _ & Hun & _).
  by split.
Defined.

Lemma GetOrders_after_SetOrderStatus_witness :
  with_Status race_order OrderStatusCharged
  ∈ elems (Memory.GetOrders_range OrderStatusCharged
             (map_to_list
                (Memory.orders
                   (Memory.SetOrderStatus (memory (stor race_start)) race_id
                      OrderStatusCharged).1))).
Proof.
  refine (proj1 (GetOrders_after_SetOrderStatus (memory (stor race_start))
                   race_id OrderStatusCharged race_order _ _ _ _)).
  - refine (bool_decide_unpack _ _). vm_compute. exact I.
  - vm_compute. reflexivity.
  - unfold Memory.iteration_of. reflexivity.
Defined.

Lemma order_routes_stop_at_fetch_witness :
  run (Handler (GET_orders_id "")) race_start
  = (mkResponse 301 (redirect "/orders"), race_start, []) /\
  run (Handler (POST_orders_id_charge "" (Ok (mkChargeOrderArgs "tok"))))
    race_start
  = (mkResponse 400 (errorResponse "invalid_status" "missing order ID"),
     race_start, []) /\
  run (Handler (POST_orders_id_cancel "")) race_start
  = (mkResponse 400 (errorResponse "invalid_status" "missing order ID"),
     race_start, []) /\
  run (Handler (POST_orders_id_cancel "zz")) race_start
  = (mkResponse 404 (errorResponse "order_not_found" "not found"), race_start,
     [EvGetOrder "zz" (Err ErrOrderNotFound)]).
Proof.
  split; [|split; [|split]].
  - destruct (order_routes_stop_at_fetch race_start ""
                (Ok (mkChargeOrderArgs "tok")) (GET_orders_id ""))
      as (Hempty & _).
    + unfold order_routes. repeat constructor.
    + exact (Hempty eq_refl).
  - destruct (order_routes_stop_at_fetch race_start ""
                (Ok (mkChargeOrderArgs "tok"))
                (POST_orders_id_charge "" (Ok (mkChargeOrderArgs "tok"))))
      as (Hempty & _).
    + unfold order_routes. repeat constructor.
    + exact (Hempty eq_refl).
  - destruct (order_routes_stop_at_fetch race_start ""
                (Ok (mkChargeOrderArgs "tok")) (POST_orders_id_cancel ""))
      as (Hempty & _).
    + unfold order_routes. repeat constructor.
    + exact (Hempty eq_refl).
  - destruct (order_routes_stop_at_fetch race_start "zz"
                (Ok (mkChargeOrderArgs "tok")) (POST_orders_id_cancel "zz"))
      as (_ & Hmissing & _).
    + unfold order_routes. repeat constructor.
    + apply Hmissing; [discriminate|]. vm_compute. reflexivity.
Defined.

Lemma postOrders_then_getOrder_witness :
  (run (Handler (GET_orders_id race_id)) race_start).1.1
  = mkResponse 200 (getOrderRes race_order).
Proof.
  destruct (postOrders_then_getOrder
              (new_instance race_rand 0 (mkClient accepting [])) widget
              race_order ltac:(vm_compute; reflexivity))
    as (_ & _ & _ & Hget & _).
  change (ID race_order) with race_id in Hget.
  change (serve1 (POST_orders (Ok widget))
            (new_instance race_rand 0 (mkClient accepting [])))
    with race_start in Hget.
  by rewrite Hget.
Defined.

Lemma getOrders_status_parameter_witness :
  run (Handler (GET_orders "Pending")) race_start
  = (mkResponse 400 (errorResponse "invalid_status"
       "unknown value for status: %v"), race_start, []).
Proof.
  apply (getOrders_status_parameter race_start "Pending").
  unfold status_tokens. intros Hin.
  repeat (apply elem_of_cons in Hin as [Hin|Hin]; [discriminate Hin|]).
  by apply elem_of_nil in Hin.
Defined.

Lemma cancelOrder_pending_without_refund_witness :
  Requests (chargeService
              (run (Handler (POST_orders_id_cancel race_id)) race_start).1.2)
  = [] /\
  (run (Handler (POST_orders_id_cancel race_id)) race_start).1.1
  = mkResponse 200
      (cancelOrderResBody
         (mkCancelOrderRes "order cancelled successfully" race_id 0)).
Proof.
  destruct (cancelOrder_pending_without_refund race_start race_id race_order
              ltac:(discriminate) ltac:(vm_compute; reflexivity) eq_refl)
    as [Hrun _].
  rewrite Hrun. split; vm_compute; reflexivity.
Defined.

Lemma cancelOrder_refuses_other_statuses_witness :
  run (Handler (POST_orders_id_cancel "f1")) with_fulfilled
  = (NotEligible_cancel, with_fulfilled, [EvGetOrder "f1" (Ok fulfilled_order)]).
Proof.
  apply (cancelOrder_refuses_other_statuses with_fulfilled "f1"
           fulfilled_order);
    [discriminate|vm_compute; reflexivity|discriminate|discriminate].
Defined.

Lemma undecodable_body_is_invalid_json_witness :
  run (Handler (POST_orders_id_charge "f1" (Err (ErrOther "EOF"))))
      with_fulfilled
  = (mkResponse 400 (errorResponse "invalid_json"
       "error decoding body: EOF"), with_fulfilled,
     [EvGetOrder "f1" (Ok fulfilled_order)]).
Proof.
  destruct (undecodable_body_is_invalid_json with_fulfilled (ErrOther "EOF")
              "f1" fulfilled_order) as [_ Hcharge].
  apply Hcharge; [discriminate|vm_compute; reflexivity].
Defined.

Lemma read_routes_change_nothing_witness :
  (run (Handler (GET_orders "charged")) race_start).1.2 = race_start.
Proof.
  exact (proj1 (read_routes_change_nothing race_start (GET_orders "charged")
                  eq_refl)).
Defined.

Lemma charge_cancel_cancel_witness :
  Requests (chargeService
              (serve [race_request; POST_orders_id_cancel race_id;
                      POST_orders_id_cancel race_id] race_start))
  = [mkChargeArgs "tok" 2000; mkChargeArgs "" (-2000)].
Proof.
  destruct (charge_cancel_cancel race_start race_id race_order
              (mkChargeOrderArgs "tok") ltac:(discriminate)
              ltac:(refine (bool_decide_unpack _ _); vm_compute; exact I)
              ltac:(vm_compute; reflexivity) eq_refl eq_refl)
    as (_ & Hreq & _).
  exact Hreq.
Defined.

Lemma stored_orders_are_sound_witness :
  accepted race_order /\ ID race_order = race_id.
Proof.
  destruct (stored_orders_are_sound race_rand 0 (mkClient accepting [])
              [POST_orders (Ok widget)] race_id race_order
              ltac:(vm_compute; reflexivity)) as (Hacc & Hid & _).
  by split.
Defined.


Lemma postOrders_on_memory_witness :
  rand_reads (stor race_start) = 1%nat.
Proof.
  destruct (postOrders_on_memory
              (new_instance race_rand 0 (mkClient accepting [])) widget)
    as (Hreads & _).
  - unfold accepted. simpl. split; [tauto|]. split; [discriminate|].
    vm_compute. discriminate.
  - exact Hreads.
Defined.
